(** * bug_hunter: the retrieval pipeline and the tolerant structured-output parser

    A shallow embedding of

    - [src/agents/context_retrieval_agent.py]: [ContextRetrievalAgent] with
      [retrieve_bug_context], [_generate_search_queries],
      [_deduplicate_results] and [_synthesize_context];
    - [src/agents/code_parser_agent.py]: [CodeParserAgent] with [parse_code]
      and [identify_code_patterns];
    - [src/config.py]: [Config] and [Config.validate].

    Python values are modelled as follows.

    - [str] is [string]; a character is a code point below 256, and slicing,
      [strip], [startswith], [endswith] and [split] are written out below.
    - A dictionary with a fixed set of keys is a record whose fields are
      options: [None] is a missing key, so that [d.get(k, default)] is
      [default_to default (field d)].
    - A score is a finite float, held as the rational number that is its
      exact value: the order of the scores and their [.2f] rendering only
      depend on that value.  [in_double_range] says that a rational is no
      larger than the largest double; it is assumed where the width of a
      rendered score matters, and nowhere else.
    - [logger] calls, raised exceptions and [try]/[except] are written in a
      small monad [M] that threads the log and carries the raised exception.
    - Collaborators that live outside the two files (the text-generation
      call [invoke_with_template] of [BaseAgent], the index client
      [mcp_client.search_documents_sync], [json.loads] and the interpreter's
      [hash]) are variables of the section that holds the agents. *)

From Stdlib Require Import ZArith QArith Qabs String Ascii List Lia Sorted Permutation.
From stdpp Require Import base list gmap strings sorting.

(** ** Python strings *)

(** [s[:n]] for a non-negative [n]. *)
Fixpoint str_take (n : nat) (s : string) : string :=
  match n, s with
  | S n', String c s' => String c (str_take n' s')
  | _, _ => ""
  end.

(** [s[n:]] for a non-negative [n]. *)
Fixpoint str_drop (n : nat) (s : string) : string :=
  match n, s with
  | S n', String _ s' => str_drop n' s'
  | _, _ => s
  end.

(** [s[:-n]] for a positive [n]: everything but the last [n] characters. *)
Definition str_drop_last (n : nat) (s : string) : string :=
  str_take (String.length s - n) s.

(** [s.startswith(p)]. *)
Definition startswith (s p : string) : bool := String.prefix p s.

(** [s.endswith(p)]: the last [len(p)] characters of [s] are [p]. *)
Definition endswith (s p : string) : bool :=
  (String.length p <=? String.length s)%nat
  && String.eqb (str_drop (String.length s - String.length p) s) p.

(** [c.isspace()] on the code points below 256: tab, line feed, vertical tab,
    form feed, carriage return, the four separators 0x1c..0x1f, space, 0x85
    and 0xa0. *)
Definition isspace (c : ascii) : bool :=
  let n := nat_of_ascii c in
  ((9 <=? n) && (n <=? 13) || (28 <=? n) && (n <=? 32)
   || (n =? 133) || (n =? 160))%nat.

Fixpoint lstrip (s : string) : string :=
  match s with
  | String c s' => if isspace c then lstrip s' else s
  | EmptyString => ""
  end.

Fixpoint rstrip (s : string) : string :=
  match s with
  | String c s' =>
      let r := rstrip s' in
      if isspace c && String.eqb r "" then "" else String c r
  | EmptyString => ""
  end.

(** [s.strip()]. *)
Definition strip (s : string) : string := rstrip (lstrip s).

(** [s.split(sep)] for a one-character separator; never empty. *)
Fixpoint str_split (sep : ascii) (s : string) : list string :=
  match s with
  | EmptyString => [""]
  | String c s' =>
      if Ascii.eqb c sep then "" :: str_split sep s'
      else match str_split sep s' with
           | piece :: pieces => String c piece :: pieces
           | [] => [String c ""]
           end
  end.

(** [sep.join(parts)]. *)
Fixpoint str_join (sep : string) (parts : list string) : string :=
  match parts with
  | [] => ""
  | [p] => p
  | p :: rest => p +:+ sep +:+ str_join sep rest
  end.

(** The number of occurrences of a character. *)
Fixpoint count_char (c : ascii) (s : string) : nat :=
  match s with
  | EmptyString => 0
  | String c' s' => (if Ascii.eqb c' c then 1 else 0) + count_char c s'
  end.

Definition LF : ascii := "010"%char.
Definition DQUOTE : ascii := "034"%char.
Definition newline : string := String LF "".

(** [t] is a run of consecutive characters of [s]. *)
Definition is_part_of (t s : string) : Prop :=
  exists before after, s = before +:+ (t +:+ after).

(** Truthiness of a string: [if s:]. *)
Definition truthy (s : string) : bool := negb (String.eqb s "").

(** [d.get(key, default)] on an optional field. *)
Definition default_to {A : Type} (d : A) (o : option A) : A :=
  match o with Some a => a | None => d end.

(** ** Rendering numbers *)

Definition digit_char (d : Z) : ascii := ascii_of_nat (48 + Z.to_nat d).

(** The decimal digits of a non-negative [n], most significant first, put in
    front of [acc].  Each round divides by ten, so [Z.log2 n] rounds after the
    first are always enough. *)
Fixpoint digits_aux (fuel : nat) (n : Z) (acc : string) : string :=
  let acc' := String (digit_char (n mod 10)) acc in
  match fuel with
  | O => acc'
  | S fuel' => if (n / 10 =? 0)%Z then acc' else digits_aux fuel' (n / 10) acc'
  end.

(** [str(n)] for an int [n >= 0]. *)
Definition str_of_Z (n : Z) : string := digits_aux (Z.to_nat (Z.log2 n)) n "".

(** The decimal numeral of a non-negative integer: one digit below ten, and
    otherwise the numeral of the tenth followed by the last digit. *)
Inductive decimal_of : Z -> string -> Prop :=
| decimal_digit (n : Z) :
    (0 <= n < 10)%Z -> decimal_of n (String (digit_char n) "")
| decimal_more (n : Z) (s : string) :
    (10 <= n)%Z -> decimal_of (n / 10) s ->
    decimal_of n (s +:+ String (digit_char (n mod 10)) "").

(** [str(n)] for the positions [enumerate] yields. *)
Definition str_of_nat (n : nat) : string := str_of_Z (Z.of_nat n).

(** Rounding the non-negative rational [n / d] to the nearest integer, ties
    to the even one. *)
Definition round_half_even (n d : Z) : Z :=
  let quo := (n / d)%Z in
  let rem := (n mod d)%Z in
  if (2 * rem <? d)%Z then quo
  else if (d <? 2 * rem)%Z then (quo + 1)%Z
  else if Z.even quo then quo else (quo + 1)%Z.

(** [f"{x:.2f}"] for a finite [x]: the sign, the integer part, a point and two
    digits, rounding the exact value to the nearest hundredth (ties to
    even).  A negative value keeps its sign when it rounds to zero; the
    negative zero of the floats has no rational of its own and is rendered
    as zero. *)
Definition format_2f (x : Q) : string :=
  let hundredths := round_half_even (100 * Z.abs (Qnum x)) (Zpos (Qden x)) in
  let frac := (hundredths mod 100)%Z in
  (if (Qnum x <? 0)%Z then "-" else "")
  +:+ str_of_Z (hundredths / 100)
  +:+ "."
  +:+ String (digit_char (frac / 10)) (String (digit_char (frac mod 10)) "").

(** The largest finite double, [(2 - 2^-52) * 2^1023]. *)
Definition DBL_MAX : Z := (2 ^ 1024 - 2 ^ 971)%Z.

(** [x] is in the range of the finite doubles. *)
Definition in_double_range (x : Q) : Prop := (Qabs x <= inject_Z DBL_MAX)%Q.

(** ** Exceptions, the log and the monad of the agents *)

(** The exceptions the two files tell apart: [json.JSONDecodeError], and any
    other subclass of [Exception], with its class name.  Both carry the text
    [str(e)] gives.  These are the failures [except Exception] takes; an
    interrupt or an exit of the interpreter is no failure of a collaborator
    and is not modelled. *)
Inductive exn : Type :=
| JSONDecodeError (msg : string)
| Exception (cls : string) (msg : string).

Definition str_of_exn (e : exn) : string :=
  match e with
  | JSONDecodeError msg => msg
  | Exception _ msg => msg
  end.

(** [isinstance(e, json.JSONDecodeError)]. *)
Definition is_JSONDecodeError (e : exn) : bool :=
  match e with
  | JSONDecodeError _ => true
  | Exception _ _ => false
  end.

(** What a call comes back with. *)
Inductive outcome (A : Type) : Type :=
| Return (a : A)
| Raise (e : exn).
Arguments Return {A} a.
Arguments Raise {A} e.

Inductive level : Type := INFO | WARNING | ERROR.

(** The records handed to [logger], oldest first. *)
Definition log : Type := list (level * string).

(** A computation reads the log so far and gives an outcome and the log
    after it. *)
Definition M (A : Type) : Type := log -> outcome A * log.

Definition ret {A : Type} (a : A) : M A := fun l => (Return a, l).

Definition raise {A : Type} (e : exn) : M A := fun l => (Raise e, l).

Definition bind {A B : Type} (m : M A) (k : A -> M B) : M B :=
  fun l =>
    match m l with
    | (Return a, l') => k a l'
    | (Raise e, l') => (Raise e, l')
    end.

(** [try: body / except ... as e: handler e]; the handler decides by itself
    which exceptions it takes and which it raises again. *)
Definition try_except {A : Type} (body : M A) (handler : exn -> M A) : M A :=
  fun l =>
    match body l with
    | (Return a, l') => (Return a, l')
    | (Raise e, l') => handler e l'
    end.

(** A call to a collaborator. *)
Definition call {A : Type} (r : outcome A) : M A := fun l => (r, l).

Definition logger (lv : level) (msg : string) : M unit :=
  fun l => (Return tt, l ++ [(lv, msg)]).

(** Unfolds the operations of [M] in the goal. *)
Ltac unfold_M := unfold bind, try_except, call, logger, ret, raise.

Declare Scope py_scope.
Delimit Scope py_scope with py.
Notation "x <- c1 ;; c2" := (bind c1 (fun x => c2))
  (at level 100, c1 at next level, right associativity) : py_scope.
Notation "c1 ;; c2" := (bind c1 (fun _ => c2))
  (at level 100, right associativity) : py_scope.

(** ** JSON values and [json.loads] *)

(** What [json.loads] builds: [None], [bool], [int], [float] (a finite one by
    its exact value, or one of the three non-finite ones), [str], [list] and
    [dict].  A dict keeps its keys in insertion order, each once. *)
#[warnings="-register-all"]
Inductive json : Type :=
| JNull
| JBool (b : bool)
| JInt (n : Z)
| JFloat (x : Q)
| JNaN
| JInfinity (negative : bool)
| JStr (s : string)
| JList (items : list json)
| JDict (items : list (string * json)).

(** [d[key] = value]: a key already there keeps its place. *)
Fixpoint dict_set (key : string) (value : json) (d : list (string * json))
  : list (string * json) :=
  match d with
  | [] => [(key, value)]
  | (k, v) :: d' =>
      if String.eqb k key then (k, value) :: d' else (k, v) :: dict_set key value d'
  end.

(* [json.loads] itself is a variable of the agents.  What follows is a
   decoder to run the examples with, written after the scanner of the [json]
   package as CPython 3.11 runs it: the grammar, the order of the tests, the
   texts of the errors and the places they point at are its own.  A float is
   the double nearest to the numeral, an infinity when that is out of range.
   The interpreter's recursion limit is a parameter, the number of levels
   that are left when [json.loads] is called: an array or an object takes
   one, and so, close to the limit, do the calls that build an error.  Two
   things are outside what is modelled here: the sign of a zero ([-0.0] is
   read as [0.0]), and a [\u] escape of a code point above 255, which is not
   among the characters of [string] and is reported as an exception of the
   class [NotModelled]. *)

(** [WHITESPACE]: space, tab, line feed, carriage return. *)
Definition is_json_ws (c : ascii) : bool :=
  let n := nat_of_ascii c in ((n =? 32) || (n =? 9) || (n =? 10) || (n =? 13))%nat.

Fixpoint skip_ws (s : string) : string :=
  match s with
  | String c s' => if is_json_ws c then skip_ws s' else s
  | EmptyString => ""
  end.

Definition is_digit (c : ascii) : bool :=
  let n := nat_of_ascii c in ((48 <=? n) && (n <=? 57))%nat.

Definition digit_value (c : ascii) : Z := Z.of_nat (nat_of_ascii c - 48).

(** The longest run of digits at the front of [s], read in base ten on top of
    [acc]: the value, the number of digits and what follows. *)
Fixpoint take_digits (acc : Z) (count : nat) (s : string) : Z * nat * string :=
  match s with
  | String c s' =>
      if is_digit c then take_digits (10 * acc + digit_value c)%Z (S count) s'
      else (acc, count, s)
  | EmptyString => (acc, count, s)
  end.

Definition hex_value (c : ascii) : option nat :=
  let n := nat_of_ascii c in
  if ((48 <=? n) && (n <=? 57))%nat then Some (n - 48)
  else if ((65 <=? n) && (n <=? 70))%nat then Some (n - 55)
  else if ((97 <=? n) && (n <=? 102))%nat then Some (n - 87)
  else None.

(** What the scanner makes of the text at a position: a value and the text
    after it; no value ([StopIteration], with the text from the place where
    one was expected); a [JSONDecodeError] with its message and the text from
    the place it points at; another exception; or nothing, when [fuel] is
    used up. *)
Inductive scanned (A : Type) : Type :=
| Scanned (a : A) (rest : string)
| NoValue (rest : string)
| Malformed (msg : string) (rest : string)
| Failed (e : exn)
| Exhausted.
Arguments Scanned {A} a rest.
Arguments NoValue {A} rest.
Arguments Malformed {A} msg rest.
Arguments Failed {A} e.
Arguments Exhausted {A}.

Definition and_then {A B : Type} (r : scanned A) (k : A -> string -> scanned B)
  : scanned B :=
  match r with
  | Scanned a rest => k a rest
  | NoValue rest => NoValue rest
  | Malformed msg rest => Malformed msg rest
  | Failed e => Failed e
  | Exhausted => Exhausted
  end.

(** The interpreter's [RecursionError]; [doing] says what it was about to
    do. *)
Definition recursion_error (doing : string) : exn :=
  Exception "RecursionError" ("maximum recursion depth exceeded" +:+ doing).

(** [raise_errmsg]: the scanner builds the [JSONDecodeError] itself, which
    takes three levels of recursion (the call of the class, its [__init__],
    and the call in there); with [recursion_left] below three it is a
    [RecursionError] from the level that was not to be had. *)
Definition raise_errmsg {A : Type} (recursion_left : nat) (msg rest : string)
  : scanned A :=
  match recursion_left with
  | 0 => Failed (recursion_error " while calling a Python object")
  | 1 => Failed (recursion_error "")
  | 2 => Failed (recursion_error " while calling a Python object")
  | _ => Malformed msg rest
  end.

(** [float(numeral)]: the double nearest to the exact value [x] of the
    numeral, the even one of two that are as near, and an infinity from
    [2^1024 - 2^970] on.  A double is [m * 2^e] with [m] below [2^53] and [e]
    from -1074 up. *)
Definition round_to_double (x : Q) : json :=
  let n := Z.abs (Qnum x) in
  let d := Zpos (Qden x) in
  if (n =? 0)%Z then JFloat 0
  else
    let k := (Z.log2 n - Z.log2 d)%Z in
    let log2_floor :=
      if (d * 2 ^ Z.max 0 k <=? n * 2 ^ Z.max 0 (- k))%Z then k else (k - 1)%Z in
    let e := Z.max (log2_floor - 52) (-1074) in
    let m := round_half_even (n * 2 ^ Z.max 0 (- e)) (d * 2 ^ Z.max 0 e) in
    if (971 <? e)%Z || ((e =? 971)%Z && (m =? 2 ^ 53)%Z)
    then JInfinity (Qnum x <? 0)%Z
    else
      let signed := if (Qnum x <? 0)%Z then (- m)%Z else m in
      JFloat (Qred (if (0 <=? e)%Z then inject_Z (signed * 2 ^ e)
                    else Qmake signed (Z.to_pos (2 ^ (- e))))).

(** [sys.get_int_max_str_digits()]. *)
Definition int_max_str_digits : nat := 4300.

(** [NUMBER_RE]: an optional minus, [0] or a run of digits that does not start
    with [0], an optional fraction and an optional exponent, each taken only
    when it has a digit.  Without fraction and exponent it is an [int], which
    [int()] refuses beyond 4300 digits; otherwise a [float]. *)
Definition scan_number (s : string) : option (scanned json) :=
  let '(negative, s1) :=
    match s with
    | String c r => if Ascii.eqb c "-" then (true, r) else (false, s)
    | EmptyString => (false, s)
    end in
  let integer :=
    match s1 with
    | String c r =>
        if Ascii.eqb c "0" then Some (0%Z, 1, r)
        else if is_digit c then Some (take_digits 0 0 s1)
        else None
    | EmptyString => None
    end in
  match integer with
  | None => None
  | Some (int_value, int_digits, s2) =>
      let '(mantissa, frac_digits, s3) :=
        match s2 with
        | String c r =>
            if Ascii.eqb c "." then
              let '(v, k, r') := take_digits int_value 0 r in
              if (k =? 0)%nat then (int_value, None, s2) else (v, Some k, r')
            else (int_value, None, s2)
        | EmptyString => (int_value, None, s2)
        end in
      let '(exponent, s4) :=
        match s3 with
        | String c r =>
            if Ascii.eqb c "e" || Ascii.eqb c "E" then
              let '(minus, r1) :=
                match r with
                | String c' r' =>
                    if Ascii.eqb c' "-" then (true, r')
                    else if Ascii.eqb c' "+" then (false, r')
                    else (false, r)
                | EmptyString => (false, r)
                end in
              let '(v, k, r2) := take_digits 0 0 r1 in
              if (k =? 0)%nat then (None, s3)
              else (Some (if minus then (- v)%Z else v), r2)
            else (None, s3)
        | EmptyString => (None, s3)
        end in
      let signed := if negative then (- mantissa)%Z else mantissa in
      match frac_digits, exponent with
      | None, None =>
          if (int_max_str_digits <? int_digits)%nat then
            Some (Failed (Exception "ValueError"
                    ("Exceeds the limit (4300 digits) for integer string conversion: value has "
                     +:+ str_of_nat int_digits
                     +:+ " digits; use sys.set_int_max_str_digits() to increase the limit")))
          else Some (Scanned (JInt signed) s4)
      | _, _ =>
          let scale := (default_to 0%Z exponent
                        - Z.of_nat (default_to 0%nat frac_digits))%Z in
          let value :=
            if (0 <=? scale)%Z then inject_Z (signed * 10 ^ scale)
            else Qmake signed (Z.to_pos (10 ^ (- scale))) in
          Some (Scanned (round_to_double value) s4)
      end
  end.

(** [scanstring], strict: the text [s] after the opening quote up to the
    closing one, escapes decoded.  [opening] is the text from the opening
    quote on, where the error of a string that does not end points.  The
    four digits of a [\u] escape must not be the last of the text. *)
Fixpoint scanstring (recursion_left : nat) (opening s : string) : scanned string :=
  match s with
  | EmptyString => raise_errmsg recursion_left "Unterminated string starting at" opening
  | String c r =>
      if Ascii.eqb c DQUOTE then Scanned "" r
      else if Ascii.eqb c "\" then
        match r with
        | EmptyString =>
            raise_errmsg recursion_left "Unterminated string starting at" opening
        | String e r' =>
            if Ascii.eqb e "u" then
              match r' with
              | String h1 (String h2 (String h3 (String h4 (String _ _ as r'')))) =>
                  match hex_value h1, hex_value h2, hex_value h3, hex_value h4 with
                  | Some a, Some b, Some c, Some d =>
                      let code := (((a * 16 + b) * 16 + c) * 16 + d)%nat in
                      if (code <? 256)%nat then
                        and_then (scanstring recursion_left opening r'')
                          (fun chars rest =>
                             Scanned (String (ascii_of_nat code) chars) rest)
                      else Failed (Exception "NotModelled" "code point above 255")
                  | _, _, _, _ =>
                      raise_errmsg recursion_left "Invalid \uXXXX escape" r
                  end
              | _ => raise_errmsg recursion_left "Invalid \uXXXX escape" r
              end
            else
            let decoded :=
              if Ascii.eqb e DQUOTE then Some DQUOTE
              else if Ascii.eqb e "\" then Some "\"%char
              else if Ascii.eqb e "/" then Some "/"%char
              else if Ascii.eqb e "b" then Some "008"%char
              else if Ascii.eqb e "f" then Some "012"%char
              else if Ascii.eqb e "n" then Some "010"%char
              else if Ascii.eqb e "r" then Some "013"%char
              else if Ascii.eqb e "t" then Some "009"%char
              else None in
            match decoded with
            | Some ch =>
                and_then (scanstring recursion_left opening r')
                  (fun chars rest => Scanned (String ch chars) rest)
            | None => raise_errmsg recursion_left "Invalid \escape" s
            end
        end
      else if (nat_of_ascii c <? 32)%nat then
        raise_errmsg recursion_left "Invalid control character at" s
      else
        and_then (scanstring recursion_left opening r)
          (fun chars rest => Scanned (String c chars) rest)
  end.

(** [parse_constant] for [NaN], [Infinity] and [-Infinity]: a call, which
    takes a level of recursion. *)
Definition parse_constant (recursion_left : nat) (value : json) (rest : string)
  : scanned json :=
  match recursion_left with
  | 0 => Failed (recursion_error " while calling a Python object")
  | _ => Scanned value rest
  end.

(** [scan_once] with the parsers of arrays and objects: one value at the
    front of [s] and what follows it.  An array or an object takes a level of
    the interpreter's recursion, of which [recursion_left] are free; with
    none left it is a [RecursionError].  [fuel] bounds the chain of calls of
    the three functions. *)
Fixpoint scan_once (fuel recursion_left : nat) (s : string) : scanned json :=
  match fuel with
  | O => Exhausted
  | S fuel' =>
      match s with
      | EmptyString => NoValue s
      | String c rest =>
          if Ascii.eqb c DQUOTE then
            and_then (scanstring recursion_left s rest)
              (fun chars r => Scanned (JStr chars) r)
          else if Ascii.eqb c "{" then
            match recursion_left with
            | O =>
                Failed (recursion_error
                          " while decoding a JSON object from a unicode string")
            | S recursion_left' =>
                if startswith (skip_ws rest) "}"
                then Scanned (JDict []) (str_drop 1 (skip_ws rest))
                else scan_members fuel' recursion_left' [] (skip_ws rest)
            end
          else if Ascii.eqb c "[" then
            match recursion_left with
            | O =>
                Failed (recursion_error
                          " while decoding a JSON array from a unicode string")
            | S recursion_left' =>
                if startswith (skip_ws rest) "]"
                then Scanned (JList []) (str_drop 1 (skip_ws rest))
                else scan_items fuel' recursion_left' [] (skip_ws rest)
            end
          else if startswith s "null" then Scanned JNull (str_drop 4 s)
          else if startswith s "true" then Scanned (JBool true) (str_drop 4 s)
          else if startswith s "false" then Scanned (JBool false) (str_drop 5 s)
          else if startswith s "NaN" then
            parse_constant recursion_left JNaN (str_drop 3 s)
          else if startswith s "Infinity" then
            parse_constant recursion_left (JInfinity false) (str_drop 8 s)
          else if startswith s "-Infinity" then
            parse_constant recursion_left (JInfinity true) (str_drop 9 s)
          else
            match scan_number s with
            | Some r => r
            | None => NoValue s
            end
      end
  end
(** The items of an array from the front of [s], after those in [values]. *)
with scan_items (fuel recursion_left : nat) (values : list json) (s : string)
  : scanned json :=
  match fuel with
  | O => Exhausted
  | S fuel' =>
      and_then (scan_once fuel' recursion_left s)
        (fun value r =>
           let values := values ++ [value] in
           match skip_ws r with
           | String c r' =>
               if Ascii.eqb c "]" then Scanned (JList values) r'
               else if Ascii.eqb c "," then
                 scan_items fuel' recursion_left values (skip_ws r')
               else raise_errmsg recursion_left "Expecting ',' delimiter" (String c r')
           | EmptyString => raise_errmsg recursion_left "Expecting ',' delimiter" ""
           end)
  end
(** The members of an object from the front of [s], where a key has to
    start, after those in [pairs]. *)
with scan_members (fuel recursion_left : nat) (pairs : list (string * json))
    (s : string) : scanned json :=
  match fuel with
  | O => Exhausted
  | S fuel' =>
      match s with
      | String c after_quote =>
          if negb (Ascii.eqb c DQUOTE) then
            raise_errmsg recursion_left
              "Expecting property name enclosed in double quotes" s
          else
            and_then (scanstring recursion_left s after_quote)
              (fun key r =>
                 if negb (startswith (skip_ws r) ":") then
                   raise_errmsg recursion_left "Expecting ':' delimiter" (skip_ws r)
                 else
                     and_then (scan_once fuel' recursion_left
                                 (skip_ws (str_drop 1 (skip_ws r))))
                       (fun value r2 =>
                          let pairs := dict_set key value pairs in
                          match skip_ws r2 with
                          | String c r3 =>
                              if Ascii.eqb c "}" then Scanned (JDict pairs) r3
                              else if Ascii.eqb c "," then
                                scan_members fuel' recursion_left pairs (skip_ws r3)
                              else raise_errmsg recursion_left
                                     "Expecting ',' delimiter" (String c r3)
                          | EmptyString =>
                              raise_errmsg recursion_left "Expecting ',' delimiter" ""
                          end))
      | EmptyString =>
          raise_errmsg recursion_left
            "Expecting property name enclosed in double quotes" s
      end
  end.

(** [str(JSONDecodeError(msg, doc, pos))]: the message, the line and the
    column of the place, both counted from 1, and the place. *)
Definition decode_error_text (msg doc : string) (pos : nat) : string :=
  let before := str_take pos doc in
  let lineno := count_char LF before + 1 in
  let colno := String.length (List.last (str_split LF before) "") + 1 in
  msg +:+ ": line " +:+ str_of_nat lineno +:+ " column " +:+ str_of_nat colno
  +:+ " (char " +:+ str_of_nat pos +:+ ")".

(** [json.loads(s)] of the examples, called with room for [recursion_left]
    arrays one inside the other: leading blanks, one value, trailing blanks,
    and nothing else.  The errors [decode] and [raw_decode] raise themselves
    take levels of recursion too: "Extra data" one and "Expecting value"
    two. *)
Definition json_loads_ref (recursion_left : nat) (s : string) : outcome json :=
  let error_at := fun (msg rest : string) =>
    JSONDecodeError
      (decode_error_text msg s (String.length s - String.length rest)) in
  match scan_once (2 * String.length s + 2) recursion_left (skip_ws s) with
  | Scanned value rest =>
      match skip_ws rest, recursion_left with
      | EmptyString, _ => Return value
      | String _ _, O => Raise (recursion_error " while calling a Python object")
      | String _ _, S _ => Raise (error_at "Extra data" (skip_ws rest))
      end
  | NoValue rest =>
      match recursion_left with
      | 0 => Raise (recursion_error "")
      | 1 => Raise (recursion_error " while calling a Python object")
      | _ => Raise (error_at "Expecting value" rest)
      end
  | Malformed msg rest => Raise (error_at msg rest)
  | Failed e => Raise e
  | Exhausted => Raise (Exception "NotModelled" "out of fuel")
  end.

(** The same text with every apostrophe turned into a double quote: the way
    the literals below that hold double quotes are written. *)
Fixpoint requote (s : string) : string :=
  match s with
  | String c s' => String (if Ascii.eqb c "'" then DQUOTE else c) (requote s')
  | EmptyString => ""
  end.

(** ** The data of the pipeline *)

(** A search hit, a dict with the keys [text] and [score] and whatever else
    the index sends along. *)
Record ScoredDocument : Type := {
  key_text : option string;
  key_score : option Q;
  key_source : option string
}.

(** One entry of [bug_info['bugs_found']]. *)
Record Bug : Type := {
  key_bug_type : option string;
  key_description : option string
}.

Record BugInfo : Type := {
  key_bugs_found : option (list Bug)
}.

(** The dict [retrieve_bug_context] returns. *)
Record RetrievalResult : Type := {
  retrieved_documents : list ScoredDocument;
  synthesized_context : string;
  total_documents_found : nat
}.

(** What [BaseAgent.__init__] is given. *)
Record BaseAgent : Type := {
  name : string;
  system_prompt : string
}.

Definition ContextRetrievalAgent : BaseAgent := {|
  name := "ContextRetrievalAgent";
  system_prompt := "You are a documentation retrieval expert. Your role is to:
                1. Formulate effective search queries for bug documentation
                2. Retrieve relevant information from the manual of known bugs
                3. Synthesize retrieved information into useful context
                4. Identify the most relevant documentation for specific bugs"
|}.

Definition CodeParserAgent : BaseAgent := {|
  name := "CodeParserAgent";
  system_prompt := "You are a C++ code analysis expert. Your role is to:
            1. Parse C++ code and identify its structure
            2. Extract functions, variables, and control flow
            3. Identify line-by-line code elements
            4. Detect potential problem areas

            Provide detailed, structured analysis in JSON format."
|}.

(** The template of [_generate_search_queries]. *)
Definition search_terms_template : string := "Extract 2-3 key technical terms from this code that would be useful for searching bug documentation:

Code:
{code}

Return only the terms, comma-separated.".

(** The template of [parse_code]. *)
Definition parse_code_template : string := requote "Analyze the following C++ code snippet and provide a structured analysis.

                Code:
                ```cpp
                {code}
                ```

                Context: {context}

                Provide your analysis in the following JSON format:
                {{
                    'functions': ['list of function names'],
                    'variables': ['list of variable names'],
                    'line_count': number,
                    'complexity': 'low/medium/high',
                    'potential_issues': ['list of potential problem areas'],
                    'code_summary': 'brief summary of what the code does'
                }}

                Return ONLY the JSON, no additional text.".

(** ** [list.sort(key=..., reverse=True)] *)

(** The built-in sort is stable, also with [reverse=True]: items whose keys
    are equal keep the order they had.  That fixes its result, which is
    computed here by insertion: [x], which stood in front of everything in
    [sorted], goes behind the items whose key is strictly greater and in
    front of the first one whose key is not. *)
Fixpoint insert_reverse {A : Type} (key : A -> Q) (x : A) (sorted : list A)
  : list A :=
  match sorted with
  | [] => [x]
  | y :: sorted' =>
      if Qle_bool (key y) (key x) then x :: y :: sorted'
      else y :: insert_reverse key x sorted'
  end.

Fixpoint sort_reverse {A : Type} (key : A -> Q) (l : list A) : list A :=
  match l with
  | [] => []
  | x :: l' => insert_reverse key x (sort_reverse key l')
  end.

(** [a] may stand in front of [b]: its score is not smaller. *)
Definition not_below {A : Type} (key : A -> Q) (a b : A) : Prop :=
  (key b <= key a)%Q.

(** The template of [identify_code_patterns]. *)
Definition identify_patterns_template : string := "Identify C++ patterns and idioms in this code:

                            ```cpp
                            {code}
                            ```

                            List any patterns you recognize (e.g., RAII, smart pointers, iterators, etc.)
                            Also note any anti-patterns or code smells.

                            Provide a concise analysis.".

(** ** config.py *)

(** What a path names in the file system. *)
Inductive node : Type := File | Directory.

(** A path is the list of its components; [p / name] is [p ++ [name]] and
    the parent of a path is the path without its last component.  The file
    system maps the paths that exist to what they name. *)
Definition parent (path : list string) : list string := removelast path.

(** [os.getenv(name)] and [os.getenv(name, default)] on the environment as
    [load_dotenv()] left it. *)
Definition getenv (env : gmap string string) (name : string) : option string :=
  env !! name.

Definition getenv_default (env : gmap string string) (name default : string)
  : string :=
  default_to default (env !! name).

(** The attributes of the class [Config], as its body computes them when
    the module is imported: from the environment, the working directory and
    the directory that holds [config.py]. *)
Record Config : Type := {
  GOOGLE_API_KEY : option string;
  PRIMARY_MODEL : string;
  FALLBACK_MODEL : string;
  MODEL_TEMPERATURE : Q;
  MAX_TOKENS : Z;
  MCP_SERVER_URL : string;
  MCP_TIMEOUT : Z;
  CHROMA_PERSIST_DIR : list string;
  CHROMA_COLLECTION_NAME : string;
  EMBEDDING_MODEL : string;
  MAX_ITERATIONS : Z;
  SIMILARITY_THRESHOLD : Q;
  TOP_K_SIMILAR_BUGS : Z;
  PROJECT_ROOT : list string;
  EXAMPLES_DIR : list string;
  OUTPUT_DIR : list string;
  LOGS_DIR : list string;
  LOG_LEVEL : string;
  LOG_FORMAT : string
}.

Definition Config_class (env : gmap string string) (cwd config_dir : list string)
  : Config :=
  {| GOOGLE_API_KEY := getenv env "GOOGLE_API_KEY";
     PRIMARY_MODEL := "gemini-2.0-flash-exp";
     FALLBACK_MODEL := "gemini-1.5-pro";
     MODEL_TEMPERATURE := 1 # 10;
     MAX_TOKENS := 8192;
     MCP_SERVER_URL := getenv_default env "MCP_SERVER_URL" "http://localhost:8003";
     MCP_TIMEOUT := 30;
     CHROMA_PERSIST_DIR := cwd ++ ["chroma_db"];
     CHROMA_COLLECTION_NAME := "bug_patterns";
     EMBEDDING_MODEL := "all-MiniLM-L6-v2";
     MAX_ITERATIONS := 10;
     SIMILARITY_THRESHOLD := 75 # 100;
     TOP_K_SIMILAR_BUGS := 3;
     PROJECT_ROOT := config_dir;
     EXAMPLES_DIR := config_dir ++ ["examples"];
     OUTPUT_DIR := config_dir ++ ["output"];
     LOGS_DIR := config_dir ++ ["logs"];
     LOG_LEVEL := getenv_default env "LOG_LEVEL" "INFO";
     LOG_FORMAT := "%(asctime)s - %(name)s - %(levelname)s - %(message)s" |}.

(** [path.mkdir(exist_ok=True)]: a directory that is there is left alone,
    anything else that is there is a [FileExistsError], and a path that is
    not there is created when its parent is a directory, and is a
    [FileNotFoundError] or a [NotADirectoryError] when the parent is missing
    or is no directory.  The text of an error leaves out the path.  This
    is the call on a system that refuses no creation; [mkdir_exist_ok_os]
    below is the call on one that may. *)
Definition mkdir_exist_ok (path : list string) (fs : gmap (list string) node)
  : outcome unit * gmap (list string) node :=
  match fs !! path with
  | Some Directory => (Return tt, fs)
  | Some File => (Raise (Exception "FileExistsError" "[Errno 17] File exists"), fs)
  | None =>
      match fs !! parent path with
      | Some Directory => (Return tt, <[path := Directory]> fs)
      | Some File =>
          (Raise (Exception "NotADirectoryError" "[Errno 20] Not a directory"), fs)
      | None =>
          (Raise (Exception "FileNotFoundError" "[Errno 2] No such file or directory"),
           fs)
      end
  end.

(** [if not cls.GOOGLE_API_KEY]: the key is unset or empty. *)
Definition key_missing (cls : Config) : bool :=
  negb (truthy (default_to "" (GOOGLE_API_KEY cls))).

(** [Config.validate()], on the file system: the outcome and the file system
    after it. *)
Definition validate (cls : Config) (fs : gmap (list string) node)
  : outcome bool * gmap (list string) node :=
  if key_missing cls then
    (Raise (Exception "ValueError" "GOOGLE_API_KEY environment variable is required"),
     fs)
  else
    (* Create necessary directories *)
    match mkdir_exist_ok (OUTPUT_DIR cls) fs with
    | (Raise e, fs) => (Raise e, fs)
    | (Return _, fs) =>
        match mkdir_exist_ok (LOGS_DIR cls) fs with
        | (Raise e, fs) => (Raise e, fs)
        | (Return _, fs) =>
            match mkdir_exist_ok (EXAMPLES_DIR cls) fs with
            | (Raise e, fs) => (Raise e, fs)
            | (Return _, fs) => (Return true, fs)
            end
        end
    end.

(** [path.mkdir(exist_ok=True)] on a system that may refuse: [refusal path]
    is the [OSError] the system answers the creation of [path] with for a
    reason of its own (no permission, no space, a read-only file system),
    [None] when it has none.  [mkdir] asks the system first and, with
    [exist_ok], drops its error when [path] is a directory: one that is
    already there is left alone whatever the system answers.  Where [path] is
    in the way as a file, or its parent is missing or is no directory, the
    error raised is the system's own when it has one, since it may give that
    one priority.  A path that is not there under a parent that is there is
    created unless the system refuses. *)
Definition mkdir_exist_ok_os (refusal : list string -> option exn)
    (path : list string) (fs : gmap (list string) node)
  : outcome unit * gmap (list string) node :=
  match fs !! path with
  | Some Directory => (Return tt, fs)
  | Some File =>
      (Raise (default_to (Exception "FileExistsError" "[Errno 17] File exists")
                (refusal path)), fs)
  | None =>
      match fs !! parent path with
      | Some Directory =>
          match refusal path with
          | Some e => (Raise e, fs)
          | None => (Return tt, <[path := Directory]> fs)
          end
      | Some File =>
          (Raise (default_to
                    (Exception "NotADirectoryError" "[Errno 20] Not a directory")
                    (refusal path)), fs)
      | None =>
          (Raise (default_to
                    (Exception "FileNotFoundError"
                       "[Errno 2] No such file or directory")
                    (refusal path)), fs)
      end
  end.

(** [Config.validate()] on such a system. *)
Definition validate_os (refusal : list string -> option exn) (cls : Config)
    (fs : gmap (list string) node)
  : outcome bool * gmap (list string) node :=
  if key_missing cls then
    (Raise (Exception "ValueError" "GOOGLE_API_KEY environment variable is required"),
     fs)
  else
    match mkdir_exist_ok_os refusal (OUTPUT_DIR cls) fs with
    | (Raise e, fs) => (Raise e, fs)
    | (Return _, fs) =>
        match mkdir_exist_ok_os refusal (LOGS_DIR cls) fs with
        | (Raise e, fs) => (Raise e, fs)
        | (Return _, fs) =>
            match mkdir_exist_ok_os refusal (EXAMPLES_DIR cls) fs with
            | (Raise e, fs) => (Raise e, fs)
            | (Return _, fs) => (Return true, fs)
            end
        end
    end.

(** ** Collaborators and data for the examples *)

(** A text-generation call that always fails. *)
Definition model_unavailable
  : BaseAgent -> string -> list (string * string) -> outcome string :=
  fun _ _ _ => Raise (Exception "RuntimeError" "model unavailable").

(** A text-generation call that always answers [answer]. *)
Definition model_answers (answer : string)
  : BaseAgent -> string -> list (string * string) -> outcome string :=
  fun _ _ _ => Return answer.

(** An index none of whose searches gets through. *)
Definition index_unreachable : nat -> string -> outcome (list ScoredDocument) :=
  fun _ _ => Raise (Exception "ConnectionError" "index unreachable").

(** A hash to run the examples with: the interpreter's own changes from one
    process to the next. *)
Fixpoint example_hash_from (h : Z) (s : string) : Z :=
  match s with
  | EmptyString => h
  | String c s' =>
      example_hash_from ((31 * h + Z.of_nat (nat_of_ascii c)) mod (2 ^ 61 - 1))%Z s'
  end.

Definition example_hash (s : string) : Z := example_hash_from 7 s.

(** Three lines of code. *)
Definition sample_code : string :=
  "int main() {" +:+ newline +:+ "  return 0;" +:+ newline +:+ "}".

(** The bug of the planner scenario. *)
Definition use_after_free : BugInfo :=
  {| key_bugs_found :=
       Some [{| key_bug_type := Some "use-after-free";
                key_description :=
                  Some "pointer freed then dereferenced in loop" |}] |}.

(** The same text found by two queries with different scores, a second text,
    and a hit that has neither text nor score.  The scores are written as
    the decimal fractions the nearest doubles stand for. *)
Definition doc_first_seen : ScoredDocument :=
  {| key_text := Some "Dereferencing a pointer after delete is undefined.";
     key_score := Some (9 # 10);
     key_source := Some "manual/memory" |}.

Definition doc_seen_again : ScoredDocument :=
  {| key_text := Some "Dereferencing a pointer after delete is undefined.";
     key_score := Some (95 # 100);
     key_source := Some "manual/pointers" |}.

Definition doc_other : ScoredDocument :=
  {| key_text := Some "Iterators are invalidated by erase.";
     key_score := Some (9 # 10);
     key_source := None |}.

Definition doc_bare : ScoredDocument :=
  {| key_text := None; key_score := None; key_source := None |}.

(** An index whose second search times out and whose other searches find
    overlapping documents. *)
Definition index_overlapping : nat -> string -> outcome (list ScoredDocument) :=
  fun i _ =>
    match i with
    | 0 => Return [doc_first_seen; doc_other]
    | 1 => Raise (Exception "TimeoutError" "timed out")
    | 2 => Return [doc_seen_again; doc_bare]
    | _ => Return []
    end.

(** Two bugs that each have a type and a description. *)
Definition two_bugs : BugInfo :=
  {| key_bugs_found :=
       Some [{| key_bug_type := Some "use-after-free";
                key_description :=
                  Some "pointer freed then dereferenced in loop" |};
             {| key_bug_type := Some "memory leak";
                key_description := Some "buffer never released" |}] |}.

(** An environment with the API key, the directory of [config.py], a file
    system that holds that directory and nothing else, and one where a file
    stands in the place of the directory of the logs. *)
Definition example_env : gmap string string :=
  {[ "GOOGLE_API_KEY" := "secret" ]}.

Definition example_root : list string := ["srv"; "bug_hunter"].

Definition example_fs : gmap (list string) node :=
  {[ example_root := Directory ]}.


(** A system on which nothing may be created under [logs]. *)
Definition logs_denied (path : list string) : option exn :=
  if decide (path = example_root ++ ["logs"])
  then Some (Exception "PermissionError" "[Errno 13] Permission denied")
  else None.

(** ** The agents *)

Section Agents.

(** [BaseAgent.invoke_with_template(self, template, **kwargs)]: the
    text-generation call, which fills the template and returns the model's
    text or raises. *)
Variable invoke_with_template :
  BaseAgent -> string -> list (string * string) -> outcome string.

(** [mcp_client.search_documents_sync(query)], which may answer each call of
    one retrieval differently: the first argument counts the calls, from 0. *)
Variable search_documents_sync : nat -> string -> outcome (list ScoredDocument).

(** [json.loads]. *)
Variable json_loads : string -> outcome json.

(** The built-in [hash] on strings, keyed anew by every interpreter. *)
Variable hash : string -> Z.

Local Open Scope py_scope.

(** *** code_parser_agent.py *)

(** [if response.startswith("```json"): response = response[7:]] *)
Definition strip_json_fence (response : string) : string :=
  if startswith response "```json" then str_drop 7 response else response.

(** [if response.startswith("```"): response = response[3:]] *)
Definition strip_leading_fence (response : string) : string :=
  if startswith response "```" then str_drop 3 response else response.

(** [if response.endswith("```"): response = response[:-3]] *)
Definition strip_trailing_fence (response : string) : string :=
  if endswith response "```" then str_drop_last 3 response else response.

(** The dict of the [except json.JSONDecodeError] branch. *)
Definition basic_structure (code : string) : json :=
  JDict [("functions", JList []);
         ("variables", JList []);
         ("line_count", JInt (Z.of_nat (length (str_split LF code))));
         ("complexity", JStr "unknown");
         ("potential_issues", JList []);
         ("code_summary", JStr "Unable to parse code structure")].

(** The [try] block of [parse_code]. *)
Definition parse_code_try (code context : string) : M json :=
  response <- call (invoke_with_template CodeParserAgent parse_code_template
                      [("code", code);
                       ("context", if truthy context then context
                                   else "No additional context provided")]) ;;
  (* Parse JSON response *)
  let response := strip response in
  let response := strip_json_fence response in
  let response := strip_leading_fence response in
  let response := strip_trailing_fence response in
  let response := strip response in
  parsed <- call (json_loads response) ;;
  logger INFO "Successfully parsed code structure" ;;
  ret parsed.

(** The text [parse_code] hands to [json.loads] when the model answered
    [response]: the five assignments to [response] in one expression. *)
Definition fenced_payload (response : string) : string :=
  strip (strip_trailing_fence (strip_leading_fence (strip_json_fence (strip response)))).

(** The keyword arguments [parse_code] passes with its template. *)
Definition parse_code_kwargs (code context : string) : list (string * string) :=
  [("code", code);
   ("context", if truthy context then context
               else "No additional context provided")].

(** [CodeParserAgent.parse_code(code, context)]. *)
Definition parse_code (code context : string) : M json :=
  try_except (parse_code_try code context)
    (fun e =>
       match e with
       | JSONDecodeError _ =>
           logger WARNING ("Failed to parse JSON response: " +:+ str_of_exn e) ;;
           ret (basic_structure code)
       | Exception _ _ =>
           logger ERROR ("Error parsing code: " +:+ str_of_exn e) ;;
           raise e
       end).

(** *** context_retrieval_agent.py *)

(** The body of [for bug in bugs_found[:3]], on the queries so far. *)
Definition bug_queries (queries : list string) (bug : Bug) : list string :=
  let bug_type := default_to "" (key_bug_type bug) in
  let description := default_to "" (key_description bug) in
  let queries :=
    if truthy bug_type
    then (queries ++ ["C++ " +:+ bug_type]) ++ [bug_type +:+ " bug example"]
    else queries in
  let queries :=
    if truthy description
    then queries ++ [str_take 100 description]
    else queries in
  queries.

(** [_generate_search_queries(code, bug_info)]. *)
Definition _generate_search_queries (code : string) (bug_info : BugInfo)
  : M (list string) :=
  let queries := [] in
  let bugs_found := default_to [] (key_bugs_found bug_info) in
  let queries :=
    match bugs_found with
    | [] => queries
    | _ :: _ => fold_left bug_queries (take 3 bugs_found) queries
    end in
  let queries := queries ++ ["C++ common bugs"] in
  queries <-
    try_except
      (terms <- call (invoke_with_template ContextRetrievalAgent
                        search_terms_template [("code", str_take 500 code)]) ;;
       ret (queries ++ [strip terms]))
      (fun e =>
         logger WARNING ("Failed to extract search terms: " +:+ str_of_exn e) ;;
         ret queries) ;;
  ret (take 5 queries).

(** [text_hash] of a result: the hash of the first 200 characters of its
    text. *)
Definition text_hash (result : ScoredDocument) : Z :=
  let text := default_to "" (key_text result) in
  hash (str_take 200 text).

(** The loop of [_deduplicate_results] over what is left of [results]. *)
Fixpoint dedupe_loop (results : list ScoredDocument) (seen_texts : gset Z)
    (unique : list ScoredDocument) : list ScoredDocument :=
  match results with
  | [] => unique
  | result :: results' =>
      if decide (text_hash result ∈ seen_texts)
      then dedupe_loop results' seen_texts unique
      else dedupe_loop results' ({[text_hash result]} ∪ seen_texts)
                       (unique ++ [result])
  end.

(** [lambda x: x.get('score', 0)] *)
Definition score_key (x : ScoredDocument) : Q := default_to 0%Q (key_score x).

(** [_deduplicate_results(results)]. *)
Definition _deduplicate_results (results : list ScoredDocument)
  : list ScoredDocument :=
  let unique := dedupe_loop results ∅ [] in
  sort_reverse score_key unique.

(** The loop of [_synthesize_context]: [enumerate(top_docs, i)]. *)
Fixpoint render_parts (i : nat) (top_docs : list ScoredDocument)
    (context_parts : list string) : list string :=
  match top_docs with
  | [] => context_parts
  | doc :: top_docs' =>
      let text := default_to "" (key_text doc) in
      let score := default_to 0%Q (key_score doc) in
      render_parts (S i) top_docs'
        (context_parts
           ++ ["[Document " +:+ str_of_nat i +:+ ", relevance: "
               +:+ format_2f score +:+ "]" +:+ newline
               +:+ str_take 300 text +:+ "..."])
  end.

(** [_synthesize_context(results)]. *)
Definition _synthesize_context (results : list ScoredDocument) : string :=
  match results with
  | [] => "No relevant documentation found."
  | _ :: _ =>
      let top_docs := take 3 results in
      let context_parts := render_parts 1 top_docs [] in
      str_join (newline +:+ newline) context_parts
  end.

(** The loop of [retrieve_bug_context] over the queries from the [i]-th on. *)
Fixpoint search_loop (i : nat) (queries : list string)
    (all_results : list ScoredDocument) : M (list ScoredDocument) :=
  match queries with
  | [] => ret all_results
  | query :: queries' =>
      all_results <-
        try_except
          (results <- call (search_documents_sync i query) ;;
           ret (all_results ++ results))
          (fun e =>
             logger ERROR ("Error searching documents: " +:+ str_of_exn e) ;;
             ret all_results) ;;
      search_loop (S i) queries' all_results
  end.

(** [retrieve_bug_context(code, bug_info)]. *)
Definition retrieve_bug_context (code : string) (bug_info : BugInfo)
  : M RetrievalResult :=
  queries <- _generate_search_queries code bug_info ;;
  all_results <- search_loop 0 queries [] ;;
  let unique_results := _deduplicate_results all_results in
  let context := _synthesize_context unique_results in
  ret {| retrieved_documents := take 5 unique_results;
         synthesized_context := context;
         total_documents_found := length unique_results |}.

(** One block of the synthesized context in the spec's words: the label
    with the 1-based position and the score to 2 decimal places, a line feed,
    the first 300 characters of the text and the truncation marker. *)
Definition render_block (position : nat) (doc : ScoredDocument) : string :=
  "[Document " +:+ str_of_nat position +:+ ", relevance: "
  +:+ format_2f (default_to 0%Q (key_score doc)) +:+ "]" +:+ newline
  +:+ str_take 300 (default_to "" (key_text doc)) +:+ "...".

(** *** The query plan in the spec's words *)

(** The queries one bug gives: from its [bug_type], when present, the
    domain-qualified query and the example query; from its [description],
    when present, its first 100 characters. *)
Definition per_bug_queries (bug : Bug) : list string :=
  let bug_type := default_to "" (key_bug_type bug) in
  let description := default_to "" (key_description bug) in
  (if truthy bug_type
   then ["C++ " +:+ bug_type; bug_type +:+ " bug example"] else [])
  ++ (if truthy description then [str_take 100 description] else []).

(** The keyword query: the stripped answer of the keyword extraction over
    the first 500 characters of the code, or nothing when it fails. *)
Definition keyword_queries (code : string) : list string :=
  match invoke_with_template ContextRetrievalAgent search_terms_template
          [("code", str_take 500 code)] with
  | Return terms => [strip terms]
  | Raise _ => []
  end.

(** The candidates in generation order: the queries of the first 3 bugs,
    the generic fallback, the keyword query. *)
Definition plan_candidates (code : string) (bug_info : BugInfo) : list string :=
  concat (map per_bug_queries (take 3 (default_to [] (key_bugs_found bug_info))))
  ++ ["C++ common bugs"] ++ keyword_queries code.

(** *** The rest of the two agents *)

(** [CodeParserAgent.identify_code_patterns(code)]. *)
Definition identify_code_patterns (code : string) : M json :=
  try_except
    (response <- call (invoke_with_template CodeParserAgent
                         identify_patterns_template [("code", code)]) ;;
     ret (JDict [("patterns_analysis", JStr response)]))
    (fun e =>
       logger ERROR ("Error identifying patterns: " +:+ str_of_exn e) ;;
       ret (JDict [("patterns_analysis", JStr "Unable to identify patterns")])).

(** What the searches for [queries] return, one hit list after the other in
    the order of the queries, the first search being the [i]-th call; a
    search that raises gives nothing. *)
Fixpoint search_hits (i : nat) (queries : list string) : list ScoredDocument :=
  match queries with
  | [] => []
  | query :: queries' =>
      match search_documents_sync i query with
      | Return results => results
      | Raise _ => []
      end ++ search_hits (S i) queries'
  end.

(** The records the failed searches for [queries] leave in the log. *)
Fixpoint search_errors (i : nat) (queries : list string) : log :=
  match queries with
  | [] => []
  | query :: queries' =>
      match search_documents_sync i query with
      | Return _ => []
      | Raise e => [(ERROR, "Error searching documents: " +:+ str_of_exn e)]
      end ++ search_errors (S i) queries'
  end.

(** What [_synthesize_context] reads of a document: the first 300 characters
    of its text and its score. *)
Definition synthesis_view (doc : ScoredDocument) : ScoredDocument :=
  {| key_text := Some (str_take 300 (default_to "" (key_text doc)));
     key_score := Some (default_to 0%Q (key_score doc));
     key_source := None |}.

(** ** Facts about the string operations *)

Lemma length_append (a b : string) :
  String.length (a +:+ b) = String.length a + String.length b.
Proof. induction a as [|c a IH]; simpl; [reflexivity | now rewrite IH]. Qed.

Lemma str_take_length (n : nat) (s : string) :
  String.length (str_take n s) = Nat.min n (String.length s).
Proof.
  revert s; induction n as [|n IH]; intros [|c s]; simpl; try reflexivity.
  now rewrite IH.
Qed.

Lemma append_cons (c : ascii) (a b : string) :
  String c a +:+ b = String c (a +:+ b).
Proof. reflexivity. Qed.

Lemma str_take_drop (n : nat) (s : string) : str_take n s +:+ str_drop n s = s.
Proof.
  revert s; induction n as [|n IH]; intros [|c s]; try reflexivity.
  cbn [str_take str_drop]. now rewrite append_cons, IH.
Qed.

Lemma str_split_nonempty (sep : ascii) (s : string) : str_split sep s <> [].
Proof.
  destruct s as [|c s]; simpl; [discriminate|].
  destruct (Ascii.eqb c sep); [discriminate|].
  destruct (str_split sep s); discriminate.
Qed.

(** [len(s.split(sep))] is one more than the number of separators in [s]. *)
Lemma str_split_length (sep : ascii) (s : string) :
  length (str_split sep s) = S (count_char sep s).
Proof.
  induction s as [|c s IH]; simpl; [reflexivity|].
  destruct (Ascii.eqb c sep); simpl; [now rewrite IH|].
  destruct (str_split sep s) as [|piece pieces] eqn:E; simpl in *; lia.
Qed.

(** ** The parser *)

(** Running the [try] block: the model's failure is the block's, and its
    answer goes through the fence strips to [json.loads]. *)
Lemma parse_code_try_run (code context : string) (l : log) :
  parse_code_try code context l =
  match invoke_with_template CodeParserAgent parse_code_template
          (parse_code_kwargs code context) with
  | Raise e => (Raise e, l)
  | Return response =>
      match json_loads (fenced_payload response) with
      | Raise e => (Raise e, l)
      | Return parsed =>
          (Return parsed, l ++ [(INFO, "Successfully parsed code structure")])
      end
  end.
Proof.
  unfold parse_code_try, parse_code_kwargs, fenced_payload. unfold_M.
  destruct (invoke_with_template _ _ _) as [response|e]; [|reflexivity].
  destruct (json_loads _) as [parsed|e]; reflexivity.
Qed.

(** The [try] block never writes to the log when it raises. *)
Lemma parse_code_try_raise_log (code context : string) (l l' : log) (e : exn) :
  parse_code_try code context l = (Raise e, l') -> l' = l.
Proof.
  rewrite parse_code_try_run.
  destruct (invoke_with_template _ _ _) as [response|e0]; [|congruence].
  destruct (json_loads _) as [parsed|e0]; congruence.
Qed.

(** C2. When the model answers and [json.loads] rejects the fence-stripped
    answer with a [JSONDecodeError], [parse_code] returns (it does not raise)
    the fallback record: empty [functions], [variables] and
    [potential_issues], [complexity] "unknown", the summary "Unable to parse
    code structure", and as [line_count] the number of newline-delimited
    lines of the [code] argument, one more than its newlines, whatever the
    rejected answer was.  The failure is logged as a warning. *)
Theorem parse_code_fallback (code context response msg : string) (l : log) :
  invoke_with_template CodeParserAgent parse_code_template
    (parse_code_kwargs code context) = Return response ->
  json_loads (fenced_payload response) = Raise (JSONDecodeError msg) ->
  parse_code code context l =
    (Return (JDict [("functions", JList []);
                    ("variables", JList []);
                    ("line_count", JInt (Z.of_nat (S (count_char LF code))));
                    ("complexity", JStr "unknown");
                    ("potential_issues", JList []);
                    ("code_summary", JStr "Unable to parse code structure")]),
     l ++ [(WARNING, "Failed to parse JSON response: " +:+ msg)])
  /\ S (count_char LF code) = length (str_split LF code).
Proof.
  intros Hcall Hloads. split; [|now rewrite str_split_length].
  unfold parse_code, try_except.
  rewrite parse_code_try_run, Hcall, Hloads.
  unfold_M. unfold basic_structure. simpl.
  now rewrite str_split_length.
Qed.

(** C3. [parse_code] raises exactly when its [try] block fails with something
    other than a [JSONDecodeError]: it then raises that very exception, after
    logging it as an error.  A [JSONDecodeError] from the block is never
    raised: the call returns the fallback record.  The block fails with [e]
    exactly when the text-generation call raises [e], or it answers and
    [json.loads] raises [e] on the fence-stripped answer. *)
Theorem parse_code_raises_iff (code context : string) (l : log) :
  (forall e l',
      parse_code code context l = (Raise e, l') <->
      is_JSONDecodeError e = false
      /\ parse_code_try code context l = (Raise e, l)
      /\ l' = l ++ [(ERROR, "Error parsing code: " +:+ str_of_exn e)])
  /\ (forall msg,
         parse_code_try code context l = (Raise (JSONDecodeError msg), l) ->
         parse_code code context l =
           (Return (basic_structure code),
            l ++ [(WARNING, "Failed to parse JSON response: " +:+ msg)]))
  /\ (forall e,
         parse_code_try code context l = (Raise e, l) <->
         invoke_with_template CodeParserAgent parse_code_template
           (parse_code_kwargs code context) = Raise e
         \/ exists response,
             invoke_with_template CodeParserAgent parse_code_template
               (parse_code_kwargs code context) = Return response
             /\ json_loads (fenced_payload response) = Raise e).
Proof.
  split; [|split].
  - intros e l'. unfold parse_code, try_except.
    destruct (parse_code_try code context l) as [[parsed|e0] l0] eqn:Htry.
    + split; [discriminate | intros (_ & H & _); discriminate].
    + apply parse_code_try_raise_log in Htry as Hl0. subst l0.
      destruct e0 as [msg0|cls0 msg0]; unfold_M; simpl.
      * split; [discriminate|]. intros (Hk & H & _).
        injection H as <-. discriminate.
      * split.
        -- intros H. injection H as <- <-. auto.
        -- intros (_ & H & ->). now injection H as <-.
  - intros msg Htry. unfold parse_code, try_except. rewrite Htry.
    reflexivity.
  - intros e. rewrite parse_code_try_run.
    destruct (invoke_with_template _ _ _) as [response|e0].
    + destruct (json_loads (fenced_payload response)) as [parsed|e1] eqn:Hl.
      * split; [discriminate|].
        intros [H | (r & H & H')]; [discriminate|].
        injection H as <-. congruence.
      * split.
        -- intros H. injection H as <-. right. eauto.
        -- intros [H | (r & H & H')]; [discriminate|].
           injection H as <-. congruence.
    + split.
      * intros H. injection H as <-. now left.
      * intros [H | (r & H & _)]; [now injection H as <- | discriminate].
Qed.

(** C9. In [parse_code] the strip of a leading "```json", the strip of a
    leading "```" and the strip of a trailing "```" are three conditional
    steps taken one after the other, each tested on what the step before
    left: the answer reaches [json.loads] through all three.  The two leading
    steps can both fire, taking ten characters off the front, and every
    combination of the three tests firing or not occurs for some answer. *)
Theorem fence_strips_sequential :
  (forall code context l,
      parse_code_try code context l =
      match invoke_with_template CodeParserAgent parse_code_template
              (parse_code_kwargs code context) with
      | Raise e => (Raise e, l)
      | Return response =>
          let r0 := strip response in
          let r1 := if startswith r0 "```json" then str_drop 7 r0 else r0 in
          let r2 := if startswith r1 "```" then str_drop 3 r1 else r1 in
          let r3 := if endswith r2 "```" then str_drop_last 3 r2 else r2 in
          match json_loads (strip r3) with
          | Raise e => (Raise e, l)
          | Return parsed =>
              (Return parsed, l ++ [(INFO, "Successfully parsed code structure")])
          end
      end)
  /\ (startswith (strip "```json```[1]") "```json" = true
      /\ startswith (strip_json_fence (strip "```json```[1]")) "```" = true
      /\ strip_leading_fence (strip_json_fence (strip "```json```[1]")) = "[1]"
      /\ fenced_payload "```json```[1]" = "[1]")
  /\ (forall json_fires plain_fires trailing_fires : bool,
         exists response,
           startswith (strip response) "```json" = json_fires
           /\ startswith (strip_json_fence (strip response)) "```" = plain_fires
           /\ endswith (strip_leading_fence (strip_json_fence (strip response)))
                "```" = trailing_fires).
Proof.
  split; [|split].
  - intros code context l. apply parse_code_try_run.
  - repeat split; reflexivity.
  - intros [] [] [].
    + exists "```json```x```". repeat split; reflexivity.
    + exists "```json```x". repeat split; reflexivity.
    + exists "```jsonx```". repeat split; reflexivity.
    + exists "```jsonx". repeat split; reflexivity.
    + exists "```x```". repeat split; reflexivity.
    + exists "```x". repeat split; reflexivity.
    + exists "x```". repeat split; reflexivity.
    + exists "x". repeat split; reflexivity.
Qed.

(** ** The query planner *)

Lemma bug_queries_app (queries : list string) (bug : Bug) :
  bug_queries queries bug = queries ++ per_bug_queries bug.
Proof.
  unfold bug_queries, per_bug_queries.
  destruct (truthy (default_to "" (key_bug_type bug))),
           (truthy (default_to "" (key_description bug)));
    simpl; rewrite <- ?app_assoc, ?app_nil_r; reflexivity.
Qed.

Lemma fold_bug_queries (bugs : list Bug) (queries : list string) :
  fold_left bug_queries bugs queries
  = queries ++ concat (map per_bug_queries bugs).
Proof.
  revert queries; induction bugs as [|bug bugs IH]; intros queries; simpl.
  - now rewrite app_nil_r.
  - rewrite IH, bug_queries_app, <- app_assoc. reflexivity.
Qed.

(** [_generate_search_queries] always returns: the first 5 candidates, and a
    warning in the log when the keyword extraction raised. *)
Lemma _generate_search_queries_run (code : string) (bug_info : BugInfo) (l : log) :
  _generate_search_queries code bug_info l =
  (Return (take 5 (plan_candidates code bug_info)),
   l ++ match invoke_with_template ContextRetrievalAgent search_terms_template
                [("code", str_take 500 code)] with
        | Return _ => []
        | Raise e => [(WARNING, "Failed to extract search terms: " +:+ str_of_exn e)]
        end).
Proof.
  unfold _generate_search_queries, plan_candidates, keyword_queries.
  assert (Hbugs : match default_to [] (key_bugs_found bug_info) with
                  | [] => []
                  | _ :: _ =>
                      fold_left bug_queries
                        (take 3 (default_to [] (key_bugs_found bug_info))) []
                  end
                  = concat (map per_bug_queries
                              (take 3 (default_to [] (key_bugs_found bug_info))))).
  { destruct (default_to [] (key_bugs_found bug_info)) as [|b bs];
      [reflexivity | now rewrite fold_bug_queries]. }
  rewrite Hbugs.
  unfold_M.
  destruct (invoke_with_template _ _ _) as [terms|e]; simpl.
  - now rewrite app_nil_r, <- app_assoc.
  - reflexivity.
Qed.

Lemma per_bug_queries_nonempty (bug : Bug) (q : string) :
  q ∈ per_bug_queries bug -> q <> "".
Proof.
  unfold per_bug_queries.
  destruct (default_to "" (key_bug_type bug)) as [|c bt];
    destruct (default_to "" (key_description bug)) as [|c' d]; simpl;
    rewrite ?elem_of_cons, ?elem_of_nil; intuition (subst; discriminate).
Qed.

(** X1. The planner always returns, and what it returns is between 1 and 5
    queries, whatever the inputs and the keyword extraction do: the part of
    C6 the code keeps. *)
Theorem plan_length_bounds (code : string) (bug_info : BugInfo) (l : log) :
  exists queries l',
    _generate_search_queries code bug_info l = (Return queries, l')
    /\ 1 <= length queries <= 5.
Proof.
  rewrite _generate_search_queries_run. eexists _, _. split; [reflexivity|].
  rewrite length_take. unfold plan_candidates.
  rewrite !length_app. cbn [length]. lia.
Qed.

(** Every query is non-empty as soon as the keyword query is: when the
    extraction fails, or answers something that is not blank. *)
Lemma plan_queries_nonempty (code : string) (bug_info : BugInfo) (l : log) :
  (forall terms,
      invoke_with_template ContextRetrievalAgent search_terms_template
        [("code", str_take 500 code)] = Return terms -> strip terms <> "") ->
  forall queries l',
    _generate_search_queries code bug_info l = (Return queries, l') ->
    Forall (fun q => q <> "") queries.
Proof.
  intros Hterms queries l'. rewrite _generate_search_queries_run.
  intros H. injection H as <- _.
  apply Forall_take. unfold plan_candidates.
  rewrite !Forall_app. split; [|split].
  - apply Forall_concat, Forall_forall. intros qs Hqs.
    apply list_elem_of_In, in_map_iff in Hqs as (bug & <- & _).
    apply Forall_forall. intros q Hq.
    now apply per_bug_queries_nonempty in Hq.
  - repeat constructor. discriminate.
  - unfold keyword_queries.
    destruct (invoke_with_template _ _ _) as [terms|e] eqn:E; repeat constructor.
    now apply Hterms.
Qed.

(** C7. The planner returns the first 5 of the candidates in generation
    order: for each of the first 3 bugs the domain-qualified query, the
    example query and the truncated description, then the generic fallback,
    then the keyword query.  When the bugs alone give 5 queries or more, the
    result is the first 5 of those and the generic fallback is dropped.  For
    the single bug [use-after-free] with the description [pointer freed then
    dereferenced in loop] and a failing keyword extraction, the result is the
    4 queries of the scenario, in that order, and the failure is logged. *)
Theorem plan_generation_order (code : string) (bug_info : BugInfo) (l : log) :
  (exists l',
      _generate_search_queries code bug_info l
      = (Return (take 5 (plan_candidates code bug_info)), l'))
  /\ (5 <= length (concat (map per_bug_queries
                             (take 3 (default_to [] (key_bugs_found bug_info))))) ->
      exists l',
        _generate_search_queries code bug_info l
        = (Return (take 5 (concat (map per_bug_queries
                     (take 3 (default_to [] (key_bugs_found bug_info)))))), l'))
  /\ (forall e,
         invoke_with_template ContextRetrievalAgent search_terms_template
           [("code", str_take 500 code)] = Raise e ->
         _generate_search_queries code
           {| key_bugs_found :=
                Some [{| key_bug_type := Some "use-after-free";
                         key_description :=
                           Some "pointer freed then dereferenced in loop" |}] |} l
         = (Return ["C++ use-after-free";
                    "use-after-free bug example";
                    "pointer freed then dereferenced in loop";
                    "C++ common bugs"],
            l ++ [(WARNING, "Failed to extract search terms: " +:+ str_of_exn e)])).
Proof.
  split; [|split].
  - rewrite _generate_search_queries_run. eauto.
  - intros Hlen. rewrite _generate_search_queries_run. eexists. f_equal. f_equal.
    unfold plan_candidates. now rewrite take_app_le.
  - intros e He. rewrite _generate_search_queries_run, He.
    unfold plan_candidates, keyword_queries. rewrite He. reflexivity.
Qed.

(** ** The orchestrator *)

(** The search loop always returns. *)
Lemma search_loop_returns (queries : list string) :
  forall i all_results l,
  exists results l', search_loop i queries all_results l = (Return results, l').
Proof.
  induction queries as [|query queries IH]; intros i all_results l; simpl.
  - unfold ret. eauto.
  - unfold bind at 1. unfold_M.
    destruct (search_documents_sync i query) as [results|e]; simpl; apply IH.
Qed.

(** When every search raises, the loop adds nothing to [all_results] and
    logs one error for each query. *)
Lemma search_loop_all_fail (queries : list string) :
  (forall i query, exists e, search_documents_sync i query = Raise e) ->
  forall i all_results l,
  exists errors,
    length errors = length queries
    /\ search_loop i queries all_results l
       = (Return all_results,
          l ++ map (fun e => (ERROR, "Error searching documents: " +:+ str_of_exn e))
                 errors).
Proof.
  intros Hfail.
  induction queries as [|query queries IH]; intros i all_results l; simpl.
  - exists []. simpl. now rewrite app_nil_r.
  - destruct (Hfail i query) as [e He].
    unfold bind at 1. unfold_M. rewrite He. simpl.
    destruct (IH (S i) all_results
                (l ++ [(ERROR, "Error searching documents: " +:+ str_of_exn e)]))
      as (errors & Hlen & Hrun).
    exists (e :: errors). split; [simpl; lia|].
    rewrite Hrun. simpl. now rewrite <- app_assoc.
Qed.

(** [retrieve_bug_context] always returns: what the searches found goes
    through deduplication and ranking, and the result holds the first 5 of
    that list, the synthesis of all of it and its length. *)
Lemma retrieve_bug_context_run (code : string) (bug_info : BugInfo) (l : log) :
  exists all_results l',
    retrieve_bug_context code bug_info l
    = (Return {| retrieved_documents := take 5 (_deduplicate_results all_results);
                 synthesized_context :=
                   _synthesize_context (_deduplicate_results all_results);
                 total_documents_found :=
                   length (_deduplicate_results all_results) |},
       l').
Proof.
  unfold retrieve_bug_context. unfold bind at 1.
  rewrite _generate_search_queries_run. unfold bind at 1.
  match goal with
  | |- context [search_loop 0 ?qs [] ?l0] =>
      destruct (search_loop_returns qs 0 [] l0) as (all_results & l' & ->)
  end.
  unfold ret. eauto.
Qed.

(** C1. When every call to [search_documents_sync] raises,
    [retrieve_bug_context] does not raise: it returns no documents, the
    sentinel text and a total of 0, having logged one error for each query
    of the plan. *)
Theorem retrieve_all_searches_fail (code : string) (bug_info : BugInfo) (l : log) :
  (forall i query, exists e, search_documents_sync i query = Raise e) ->
  exists queries l1 errors,
    _generate_search_queries code bug_info l = (Return queries, l1)
    /\ length errors = length queries
    /\ retrieve_bug_context code bug_info l
       = (Return {| retrieved_documents := [];
                    synthesized_context := "No relevant documentation found.";
                    total_documents_found := 0 |},
          l1 ++ map (fun e => (ERROR, "Error searching documents: " +:+ str_of_exn e))
                  errors).
Proof.
  intros Hfail.
  pose proof (_generate_search_queries_run code bug_info l) as Hplan.
  revert Hplan. generalize (take 5 (plan_candidates code bug_info)) as queries.
  intros queries.
  match goal with |- _ = (_, ?l0) -> _ => generalize l0 as l1 end.
  intros l1 Hplan.
  destruct (search_loop_all_fail queries Hfail 0 [] l1) as (errors & Hlen & Hrun).
  exists queries, l1, errors. split; [assumption|]. split; [assumption|].
  unfold retrieve_bug_context. unfold bind at 1. rewrite Hplan.
  unfold bind at 1. rewrite Hrun. reflexivity.
Qed.

(** ** The ranker *)

Lemma insert_reverse_perm {A : Type} (key : A -> Q) (x : A) (l : list A) :
  Permutation (insert_reverse key x l) (x :: l).
Proof.
  induction l as [|y l IH]; simpl; [reflexivity|].
  destruct (Qle_bool (key y) (key x)); [reflexivity|].
  rewrite IH. apply perm_swap.
Qed.

Lemma sort_reverse_perm {A : Type} (key : A -> Q) (l : list A) :
  Permutation (sort_reverse key l) l.
Proof.
  induction l as [|x l IH]; simpl; [reflexivity|].
  now rewrite insert_reverse_perm, IH.
Qed.

Lemma insert_reverse_sorted {A : Type} (key : A -> Q) (x : A) (l : list A) :
  StronglySorted (not_below key) l ->
  StronglySorted (not_below key) (insert_reverse key x l).
Proof.
  induction 1 as [|y l Hsorted IH Hy]; simpl.
  - repeat constructor.
  - destruct (Qle_bool (key y) (key x)) eqn:Hle.
    + apply Qle_bool_iff in Hle.
      constructor; [now constructor|].
      constructor; [exact Hle|].
      eapply Forall_impl; [exact Hy|].
      intros z Hz. unfold not_below in *. now apply Qle_trans with (key y).
    + constructor; [exact IH|].
      rewrite insert_reverse_perm. constructor; [|exact Hy].
      unfold not_below. apply Qlt_le_weak, Qnot_le_lt.
      intros H. apply Qle_bool_iff in H. congruence.
Qed.

Lemma sort_reverse_sorted {A : Type} (key : A -> Q) (l : list A) :
  StronglySorted (not_below key) (sort_reverse key l).
Proof.
  induction l as [|x l IH]; simpl; [constructor|].
  now apply insert_reverse_sorted.
Qed.

(** Among the items of one score, [insert_reverse] puts [x] first. *)
Lemma insert_reverse_filter {A : Type} (key : A -> Q) (q : Q) (x : A) (l : list A) :
  List.filter (fun d => Qeq_bool (key d) q) (insert_reverse key x l)
  = List.filter (fun d => Qeq_bool (key d) q) (x :: l).
Proof.
  induction l as [|y l IH]; simpl; [reflexivity|].
  destruct (Qle_bool (key y) (key x)) eqn:Hle; [reflexivity|].
  simpl. rewrite IH. simpl.
  destruct (Qeq_bool (key x) q) eqn:Hx; [|reflexivity].
  destruct (Qeq_bool (key y) q) eqn:Hy; [|reflexivity].
  apply Qeq_bool_iff in Hx, Hy.
  assert (Qle_bool (key y) (key x) = true); [|congruence].
  apply Qle_bool_iff. rewrite Hx, Hy. apply Qle_refl.
Qed.

Lemma sort_reverse_filter {A : Type} (key : A -> Q) (q : Q) (l : list A) :
  List.filter (fun d => Qeq_bool (key d) q) (sort_reverse key l)
  = List.filter (fun d => Qeq_bool (key d) q) l.
Proof.
  induction l as [|x l IH]; simpl; [reflexivity|].
  rewrite insert_reverse_filter. simpl. now rewrite IH.
Qed.

(** A list in descending order of the keys is fixed by the order within
    each class of equal keys. *)
Lemma descending_unique {A : Type} (key : A -> Q) (l1 : list A) :
  forall l2,
    StronglySorted (not_below key) l1 ->
    StronglySorted (not_below key) l2 ->
    (forall q,
        List.filter (fun d => Qeq_bool (key d) q) l1
        = List.filter (fun d => Qeq_bool (key d) q) l2) ->
    l1 = l2.
Proof.
  assert (Hrefl : forall a : A, Qeq_bool (key a) (key a) = true)
    by (intros a; apply Qeq_bool_iff; reflexivity).
  assert (Hhead : forall a b (k1 k2 : list A),
             Forall (not_below key a) k1 ->
             Qeq_bool (key b) (key a) = false ->
             List.filter (fun d => Qeq_bool (key d) (key b)) (a :: k1)
             = List.filter (fun d => Qeq_bool (key d) (key b)) (b :: k2) ->
             (key b <= key a)%Q).
  { intros a b k1 k2 Ha Hba Hf. simpl in Hf. rewrite Hrefl in Hf.
    destruct (Qeq_bool (key a) (key b)) eqn:Hab.
    - apply Qeq_bool_iff in Hab. rewrite Hab. apply Qle_refl.
    - assert (Hin : In b (List.filter (fun d => Qeq_bool (key d) (key b)) k1))
        by (rewrite Hf; now left).
      apply filter_In in Hin as [Hin _].
      rewrite Forall_forall in Ha. apply Ha. now apply list_elem_of_In. }
  induction l1 as [|a l1 IH]; intros l2 Hs1 Hs2 Hfilter.
  - destruct l2 as [|b l2]; [reflexivity|].
    specialize (Hfilter (key b)). simpl in Hfilter. rewrite Hrefl in Hfilter.
    discriminate.
  - destruct l2 as [|b l2].
    { specialize (Hfilter (key a)). simpl in Hfilter. rewrite Hrefl in Hfilter.
      discriminate. }
    apply StronglySorted_inv in Hs1 as [Hs1 Ha].
    apply StronglySorted_inv in Hs2 as [Hs2 Hb].
    assert (Hab : a = b).
    { pose proof (Hfilter (key a)) as Hfa. simpl in Hfa. rewrite Hrefl in Hfa.
      destruct (Qeq_bool (key b) (key a)) eqn:Hba; [now injection Hfa|].
      exfalso.
      assert (Hle1 : (key b <= key a)%Q)
        by (eapply Hhead; [exact Ha | exact Hba | apply Hfilter]).
      assert (Hle2 : (key a <= key b)%Q).
      { destruct (Qeq_bool (key a) (key b)) eqn:Hab.
        - apply Qeq_bool_iff in Hab. rewrite Hab. apply Qle_refl.
        - eapply Hhead; [exact Hb | exact Hab | symmetry; apply Hfilter]. }
      assert (Heq : Qeq_bool (key b) (key a) = true)
        by (apply Qeq_bool_iff; now apply Qle_antisym).
      congruence. }
    subst b. f_equal. apply IH; [assumption | assumption |].
    intros q. specialize (Hfilter q). simpl in Hfilter.
    destruct (Qeq_bool (key a) q); [now injection Hfilter | exact Hfilter].
Qed.

(** So [sort_reverse] is the stable sort: whatever list is in descending
    order of the keys and keeps the order of the items of equal key is the
    list it computes. *)
Lemma sort_reverse_is_the_stable_sort {A : Type} (key : A -> Q) (l sorted : list A) :
  StronglySorted (not_below key) sorted ->
  (forall q,
      List.filter (fun d => Qeq_bool (key d) q) sorted
      = List.filter (fun d => Qeq_bool (key d) q) l) ->
  sorted = sort_reverse key l.
Proof.
  intros Hsorted Hstable.
  apply (descending_unique key); [assumption | apply sort_reverse_sorted |].
  intros q. now rewrite Hstable, sort_reverse_filter.
Qed.



(** ** The deduplicator *)

(** The loop, started with the hashes of [unique] in [seen_texts]: it keeps
    [unique] and adds, in the order of [results], the first result of each
    hash that is new. *)
Lemma dedupe_loop_spec (results : list ScoredDocument) :
  forall (seen_texts : gset Z) (unique : list ScoredDocument),
    (forall z, z ∈ seen_texts <-> z ∈ text_hash <$> unique) ->
    NoDup (text_hash <$> unique) ->
    exists kept,
      dedupe_loop results seen_texts unique = unique ++ kept
      /\ NoDup (text_hash <$> (unique ++ kept))
      /\ sublist kept results
      /\ (forall d, d ∈ kept ->
            (text_hash d ∉ seen_texts)
            /\ List.find (fun x => Z.eqb (text_hash x) (text_hash d)) results
               = Some d)
      /\ (forall x, x ∈ results ->
            text_hash x ∈ seen_texts
            \/ exists d, d ∈ kept /\ text_hash d = text_hash x).
Proof.
  induction results as [|result results IH]; intros seen_texts unique Hseen Hnodup.
  - exists []. simpl. rewrite app_nil_r.
    split; [reflexivity|]. split; [exact Hnodup|]. split; [constructor|].
    split; intros d Hd; inversion Hd.
  - simpl. destruct (decide (text_hash result ∈ seen_texts)) as [Hin|Hnotin].
    + destruct (IH seen_texts unique Hseen Hnodup)
        as (kept & Hrun & Hnd & Hsub & Hfirst & Hall).
      exists kept. repeat split; auto.
      * now apply sublist_cons.
      * now apply Hfirst.
      * destruct (Hfirst d H) as [Hd Hfind]. simpl.
        destruct (Z.eqb_spec (text_hash result) (text_hash d)) as [E|E];
          [congruence | exact Hfind].
      * intros x Hx. apply elem_of_cons in Hx as [->|Hx]; [now left | now apply Hall].
    + destruct (IH ({[text_hash result]} ∪ seen_texts) (unique ++ [result]))
        as (kept & Hrun & Hnd & Hsub & Hfirst & Hall).
      * intros z. rewrite fmap_app, elem_of_app, elem_of_union, <- Hseen. simpl.
        rewrite elem_of_singleton, list_elem_of_singleton. tauto.
      * rewrite fmap_app. apply NoDup_app. split; [exact Hnodup|]. split.
        -- intros z Hz. apply Hseen in Hz. simpl.
           rewrite list_elem_of_singleton. congruence.
        -- simpl. apply NoDup_singleton.
      * exists (result :: kept). rewrite Hrun, <- app_assoc. simpl.
        split; [reflexivity|]. split.
        { now rewrite <- app_assoc in Hnd. }
        split; [now apply sublist_skip|]. split.
        -- intros d Hd. apply elem_of_cons in Hd as [->|Hd].
           ++ split; [exact Hnotin|]. simpl. now rewrite Z.eqb_refl.
           ++ destruct (Hfirst d Hd) as [Hd' Hfind].
              rewrite elem_of_union, elem_of_singleton in Hd'.
              split; [tauto|]. simpl.
              destruct (Z.eqb_spec (text_hash result) (text_hash d)) as [E|E];
                [exfalso; apply Hd'; now left | exact Hfind].
        -- intros x Hx. apply elem_of_cons in Hx as [->|Hx].
           ++ right. exists result. split; [apply list_elem_of_here | reflexivity].
           ++ destruct (Hall x Hx) as [Hx'|(d & Hd & Hdx)].
              ** rewrite elem_of_union, elem_of_singleton in Hx'.
                 destruct Hx' as [Hx'|Hx']; [|now left].
                 right. exists result. split; [apply list_elem_of_here | now symmetry].
              ** right. exists d. split; [now apply list_elem_of_further | exact Hdx].
Qed.



(** ** The synthesizer *)

(** A number below [10 ^ (k + 1)] is written with at most [k + 1] digits. *)
Lemma digits_aux_length (fuel : nat) :
  forall (n : Z) (acc : string) (k : nat),
    (0 <= n < 10 ^ Z.of_nat (S k))%Z ->
    String.length (digits_aux fuel n acc) <= String.length acc + S k.
Proof.
  induction fuel as [|fuel IH]; intros n acc k Hn; simpl; [lia|].
  destruct (Z.eqb_spec (n / 10) 0) as [Hz|Hnz]; simpl; [lia|].
  destruct k as [|k].
  - exfalso. apply Hnz. apply Z.div_small. change (10 ^ Z.of_nat 1)%Z with 10%Z in Hn. lia.
  - specialize (IH (n / 10)%Z (String (digit_char (n mod 10)) acc) k).
    simpl in IH. etransitivity; [apply IH|lia].
    split; [apply Z.div_pos; lia|].
    apply Z.div_lt_upper_bound; [lia|].
    rewrite (Nat2Z.inj_succ (S k)), Z.pow_succ_r in Hn by lia. lia.
Qed.

Lemma append_assoc (a b c : string) : (a +:+ b) +:+ c = a +:+ (b +:+ c).
Proof.
  induction a as [|ch a IH]; [reflexivity|].
  change (String ch ((a +:+ b) +:+ c) = String ch (a +:+ (b +:+ c))).
  now rewrite IH.
Qed.

(** With [fuel] rounds after the first, a number below [10 ^ (fuel + 1)] is
    written out in full. *)
Lemma digits_aux_decimal (fuel : nat) :
  forall (n : Z) (acc : string),
    (0 <= n < 10 ^ Z.of_nat (S fuel))%Z ->
    exists s, decimal_of n s /\ digits_aux fuel n acc = s +:+ acc.
Proof.
  induction fuel as [|fuel IH]; intros n acc Hn.
  - change (10 ^ Z.of_nat 1)%Z with 10%Z in Hn.
    exists (String (digit_char n) ""). split; [now constructor|].
    simpl. now rewrite Z.mod_small.
  - simpl. destruct (Z.eqb_spec (n / 10) 0) as [Hz|Hnz].
    + assert (n < 10)%Z.
      { destruct (Z.lt_ge_cases n 10) as [|Hge]; [assumption|].
        apply (Z.div_le_mono _ _ 10) in Hge; [|lia].
        change (10 / 10)%Z with 1%Z in Hge. lia. }
      exists (String (digit_char n) ""). split; [constructor; lia|].
      simpl. now rewrite Z.mod_small by lia.
    + assert (10 <= n)%Z.
      { destruct (Z.lt_ge_cases n 10) as [Hlt|]; [|assumption].
        exfalso. apply Hnz. apply Z.div_small. lia. }
      destruct (IH (n / 10)%Z (String (digit_char (n mod 10)) acc)) as (s & Hs & Hrun).
      { split; [apply Z.div_pos; lia|].
        apply Z.div_lt_upper_bound; [lia|].
        rewrite (Nat2Z.inj_succ (S fuel)), Z.pow_succ_r in Hn by lia. lia. }
      exists (s +:+ String (digit_char (n mod 10)) ""). split; [now constructor|].
      rewrite Hrun, append_assoc. reflexivity.
Qed.

(** [str_of_Z] gives the decimal numeral: its rounds are enough. *)
Lemma str_of_Z_decimal (n : Z) : (0 <= n)%Z -> decimal_of n (str_of_Z n).
Proof.
  intros Hn. unfold str_of_Z.
  destruct (digits_aux_decimal (Z.to_nat (Z.log2 n)) n "") as (s & Hs & Hrun).
  - split; [assumption|].
    destruct (Z.eq_dec n 0%Z) as [->|Hnz]; [reflexivity|].
    rewrite Nat2Z.inj_succ, Z2Nat.id by apply Z.log2_nonneg.
    apply Z.lt_le_trans with (2 ^ Z.succ (Z.log2 n))%Z.
    + apply Z.log2_spec. lia.
    + apply Z.pow_le_mono_l. lia.
  - rewrite Hrun.
    assert (Hnil : forall t : string, t +:+ "" = t).
    { induction t as [|c t IHt]; [reflexivity|].
      change (String c (t +:+ "") = String c t). now rewrite IHt. }
    now rewrite Hnil.
Qed.

Lemma str_of_Z_length (n : Z) (k : nat) :
  (0 <= n < 10 ^ Z.of_nat (S k))%Z -> String.length (str_of_Z n) <= S k.
Proof. intros Hn. apply (digits_aux_length _ n "" k Hn). Qed.

Lemma round_half_even_bounds (n d : Z) :
  (0 <= n)%Z -> (0 < d)%Z ->
  (0 <= round_half_even n d <= n / d + 1)%Z.
Proof.
  intros Hn Hd. unfold round_half_even.
  assert (0 <= n / d)%Z by (apply Z.div_pos; lia).
  destruct (2 * (n mod d) <? d)%Z; [lia|].
  destruct (d <? 2 * (n mod d))%Z; [lia|].
  destruct (Z.even (n / d)); lia.
Qed.

(** A value of magnitude at most [m], with [m] below [10 ^ (k + 1)], is
    rendered with at most [k + 1] digits before the point: with the sign, the
    point and the two decimals that is [k + 5] characters. *)
Lemma format_2f_length (x : Q) (m : Z) (k : nat) :
  (0 <= m < 10 ^ Z.of_nat (S k))%Z ->
  (Qabs x <= inject_Z m)%Q ->
  String.length (format_2f x) <= S k + 4.
Proof.
  intros Hm Hx. unfold format_2f.
  destruct x as [num den]. unfold Qle in Hx. cbn [Qabs Qnum Qden inject_Z] in *.
  set (h := round_half_even (100 * Z.abs num) (Z.pos den)).
  assert (Hh : (0 <= h <= 100 * Z.abs num / Z.pos den + 1)%Z)
    by (apply round_half_even_bounds; lia).
  assert (Hq : (100 * Z.abs num / Z.pos den <= 100 * m)%Z).
  { apply Z.div_le_upper_bound; [lia|]. nia. }
  assert (Hint : (0 <= h / 100 < 10 ^ Z.of_nat (S k))%Z).
  { split; [apply Z.div_pos; lia|].
    apply Z.div_lt_upper_bound; [lia|]. lia. }
  apply str_of_Z_length in Hint.
  rewrite !length_append.
  destruct (num <? 0)%Z; cbn [String.length]; lia.
Qed.

Lemma DBL_MAX_bounds : (0 <= DBL_MAX < 10 ^ Z.of_nat 309)%Z.
Proof. split; [discriminate | reflexivity]. Qed.

(** The rendering of a score in the range of the doubles has at most 313
    characters. *)
Lemma format_2f_double_length (x : Q) :
  in_double_range x -> String.length (format_2f x) <= 313.
Proof. intros Hx. apply (format_2f_length x DBL_MAX 308 DBL_MAX_bounds Hx). Qed.

(** A block is at most the 300 characters of text and 342 more: the words
    and punctuation of the label, one digit of position, the score and the
    marker. *)
Lemma render_block_length (position : nat) (doc : ScoredDocument) :
  String.length (str_of_nat position) <= 1 ->
  in_double_range (score_key doc) ->
  String.length (render_block position doc) <= 300 + 342.
Proof.
  intros Hpos Hscore. unfold render_block.
  apply format_2f_double_length in Hscore. unfold score_key in Hscore.
  rewrite !length_append, str_take_length. cbn [String.length newline].
  lia.
Qed.

Lemma _synthesize_context_take (results : list ScoredDocument) (n : nat) :
  3 <= n -> _synthesize_context (take n results) = _synthesize_context results.
Proof.
  intros Hn. destruct n as [|n]; [lia|].
  destruct results as [|d results]; [reflexivity|].
  cbn [take _synthesize_context].
  rewrite take_take. now replace (2 `min` n) with 2 by lia.
Qed.

(** The hundredths [format_2f] prints are the nearest to the value, and the
    even ones of the two when the value lies half-way. *)
Lemma round_half_even_nearest (n d : Z) :
  (0 <= n)%Z -> (0 < d)%Z ->
  (2 * Z.abs (n - round_half_even n d * d) <= d)%Z
  /\ ((2 * Z.abs (n - round_half_even n d * d))%Z = d ->
      Z.even (round_half_even n d) = true).
Proof.
  intros Hn Hd. unfold round_half_even.
  pose proof (Z.div_mod n d ltac:(lia)) as Hdm.
  pose proof (Z.mod_pos_bound n d Hd) as Hrem.
  destruct (Z.ltb_spec (2 * (n mod d)) d) as [Hlt|Hge].
  { split; [lia|]. intros Htie. exfalso. lia. }
  destruct (Z.ltb_spec d (2 * (n mod d))) as [Hgt|Hle].
  { split; [lia|]. intros Htie. exfalso. lia. }
  destruct (Z.even (n / d)) eqn:Heven.
  - split; [lia | auto].
  - split; [lia|]. intros _.
    rewrite Z.add_1_r, Z.even_succ, <- Z.negb_even, Heven. reflexivity.
Qed.

(** C8. On no documents the synthesizer returns exactly the sentinel.
    Otherwise it renders the first 3 documents and no other, the blocks
    joined by a blank line.  A block is the label "[Document i, relevance:
    s]" with the position i (1, 2, 3) and the score s, a line feed, the
    first 300 characters of the text and the marker "...".  The first 300
    characters are the front of the text, all of it when it is shorter.  The
    score is written with its sign when negative, the decimal numeral of its
    whole part, a point and two digits, and these are the hundredths nearest
    to the value (the even ones on a tie): 0.9 gives "0.90", 0.125 gives
    "0.12".  With scores in the range of the doubles the result has at most
    3 * (300 + 342) + 4 characters: three blocks of 300 characters of text
    and 342 of label, score and marker, and two separators of two. *)
Theorem synthesize_context_spec :
  let text_of := fun d : ScoredDocument =>
                   match key_text d with Some t => t | None => "" end in
  let score_of := fun d : ScoredDocument =>
                    match key_score d with Some q => q | None => 0%Q end in
  let line_feed := String "010"%char "" in
  let block := fun (position : string) (d : ScoredDocument) =>
                 "[Document " +:+ position +:+ ", relevance: "
                 +:+ format_2f (score_of d) +:+ "]" +:+ line_feed
                 +:+ str_take 300 (text_of d) +:+ "..." in
  _synthesize_context [] = "No relevant documentation found."
  /\ (forall d1, _synthesize_context [d1] = block "1" d1)
  /\ (forall d1 d2,
         _synthesize_context [d1; d2]
         = block "1" d1 +:+ (line_feed +:+ line_feed) +:+ block "2" d2)
  /\ (forall d1 d2 d3 rest,
         _synthesize_context (d1 :: d2 :: d3 :: rest)
         = block "1" d1 +:+ (line_feed +:+ line_feed)
           +:+ block "2" d2 +:+ (line_feed +:+ line_feed)
           +:+ block "3" d3)
  /\ (forall t : string,
         String.length (str_take 300 t) = Nat.min 300 (String.length t)
         /\ exists rest, t = str_take 300 t +:+ rest)
  /\ (forall x : Q,
         exists (hundredths : Z) (whole : string),
           format_2f x
           = (if (Qnum x <? 0)%Z then "-" else "") +:+ whole +:+ "."
             +:+ String (digit_char (hundredths mod 100 / 10))
                   (String (digit_char (hundredths mod 100 mod 10)) "")
           /\ decimal_of (hundredths / 100) whole
           /\ (0 <= hundredths)%Z
           /\ (2 * Z.abs (100 * Z.abs (Qnum x) - hundredths * Zpos (Qden x))
               <= Zpos (Qden x))%Z
           /\ ((2 * Z.abs (100 * Z.abs (Qnum x) - hundredths * Zpos (Qden x)))%Z
               = Zpos (Qden x) ->
               Z.even hundredths = true))
  /\ (format_2f (9 # 10) = "0.90" /\ format_2f (95 # 100) = "0.95"
      /\ format_2f (1 # 8) = "0.12" /\ format_2f (3 # 8) = "0.38"
      /\ format_2f 0 = "0.00" /\ format_2f (-5 # 2) = "-2.50"
      /\ format_2f (1234567 # 100) = "12345.67"
      /\ format_2f (99999 # 10000) = "10.00")
  /\ (forall results,
         Forall (fun d => in_double_range (score_of d)) (take 3 results) ->
         String.length (_synthesize_context results) <= 3 * (300 + 342) + 4).
Proof.
  cbv zeta.
  split; [reflexivity|]. split; [reflexivity|]. split; [reflexivity|].
  split; [reflexivity|].
  split.
  { intros t. split; [apply str_take_length|].
    exists (str_drop 300 t). now rewrite str_take_drop. }
  split.
  { intros x. unfold format_2f.
    destruct (round_half_even_nearest (100 * Z.abs (Qnum x)) (Zpos (Qden x)))
      as [Hnear Htie]; [lia | lia |].
    destruct (round_half_even_bounds (100 * Z.abs (Qnum x)) (Zpos (Qden x)))
      as [Hpos _]; [lia | lia |].
    eexists _, _. split; [reflexivity|].
    split; [apply str_of_Z_decimal; apply Z.div_pos; lia|].
    split; [exact Hpos|]. split; [exact Hnear | exact Htie]. }
  split; [repeat split; reflexivity|].
  assert (Hblock : forall position d,
             position = 1 \/ position = 2 \/ position = 3 ->
             in_double_range (score_key d) ->
             String.length (render_block position d) <= 300 + 342).
  { intros position d Hp Hd. apply render_block_length; [|exact Hd].
    destruct Hp as [->|[->| ->]]; vm_compute; lia. }
  intros [|d1 [|d2 [|d3 rest]]] Hrange.
  - vm_compute. lia.
  - change (_synthesize_context [d1]) with (render_block 1 d1).
    apply Forall_cons in Hrange as [H1 _].
    pose proof (Hblock 1 d1 (or_introl eq_refl) H1). lia.
  - change (_synthesize_context [d1; d2])
      with (render_block 1 d1 +:+ (newline +:+ newline) +:+ render_block 2 d2).
    apply Forall_cons in Hrange as [H1 Hrange].
    apply Forall_cons in Hrange as [H2 _].
    pose proof (Hblock 1 d1 (or_introl eq_refl) H1).
    pose proof (Hblock 2 d2 (or_intror (or_introl eq_refl)) H2).
    rewrite !length_append. cbn [String.length newline append]. lia.
  - change (_synthesize_context (d1 :: d2 :: d3 :: rest))
      with (render_block 1 d1 +:+ (newline +:+ newline)
            +:+ render_block 2 d2 +:+ (newline +:+ newline)
            +:+ render_block 3 d3).
    cbn [take] in Hrange.
    apply Forall_cons in Hrange as [H1 Hrange].
    apply Forall_cons in Hrange as [H2 Hrange].
    apply Forall_cons in Hrange as [H3 _].
    pose proof (Hblock 1 d1 (or_introl eq_refl) H1).
    pose proof (Hblock 2 d2 (or_intror (or_introl eq_refl)) H2).
    pose proof (Hblock 3 d3 (or_intror (or_intror eq_refl)) H3).
    rewrite !length_append. cbn [String.length newline append]. lia.
Qed.

(** C10. The synthesized context of a list is that of its first 5
    documents, and that of its first 3; the 3 documents it renders are the
    first 3 of the first 5.  So in what [retrieve_bug_context] returns, which
    it always does, [synthesized_context] is the synthesis of
    [retrieved_documents]: every document rendered is among those
    returned, although the synthesizer was handed the whole ranked list. *)
Theorem synthesize_context_top5 (results : list ScoredDocument) :
  _synthesize_context results = _synthesize_context (take 5 results)
  /\ _synthesize_context results = _synthesize_context (take 3 results)
  /\ take 3 results = take 3 (take 5 results)
  /\ (forall code bug_info l,
         exists result l',
           retrieve_bug_context code bug_info l = (Return result, l')
           /\ synthesized_context result
              = _synthesize_context (retrieved_documents result)).
Proof.
  split; [now rewrite _synthesize_context_take by lia|].
  split; [now rewrite _synthesize_context_take by lia|].
  split; [now rewrite take_take|].
  intros code bug_info l.
  destruct (retrieve_bug_context_run code bug_info l) as (all_results & l' & ->).
  eexists _, _. split; [reflexivity|].
  cbn [synthesized_context retrieved_documents].
  now rewrite _synthesize_context_take by lia.
Qed.

(** X2. Whatever the collaborators do, [retrieve_bug_context] returns a
    result.  Its documents are the first of the deduplicated and ranked
    list, whose length is the total it reports: at most 5, in descending
    order of the value of their [score] key (0 for a document without it),
    no fingerprint twice. *)
Theorem retrieve_result_invariant (code : string) (bug_info : BugInfo) (l : log) :
  exists result l',
    retrieve_bug_context code bug_info l = (Return result, l')
    /\ length (retrieved_documents result)
       = Nat.min 5 (total_documents_found result)
    /\ StronglySorted
         (fun a b =>
            (match key_score b with Some q => q | None => 0 end
             <= match key_score a with Some q => q | None => 0 end)%Q)
         (retrieved_documents result)
    /\ NoDup (text_hash <$> retrieved_documents result).
Proof.
  destruct (retrieve_bug_context_run code bug_info l) as (all_results & l' & ->).
  eexists _, _. split; [reflexivity|].
  cbn [retrieved_documents total_documents_found].
  split; [apply length_take|]. split.
  - apply StronglySorted_app_1_l with (drop 5 (_deduplicate_results all_results)).
    rewrite take_drop. apply (sort_reverse_sorted score_key).
  - rewrite fmap_take. eapply sublist_NoDup; [|apply sublist_take].
    unfold _deduplicate_results.
    rewrite (sort_reverse_perm score_key (dedupe_loop all_results ∅ [])).
    destruct (dedupe_loop_spec all_results ∅ []) as (kept & -> & Hnd & _).
    + intros z. simpl. rewrite elem_of_nil. set_solver.
    + constructor.
    + exact Hnd.
Qed.

(** ** More on the parser *)

(** X3. [identify_code_patterns] never raises, whatever the text-generation
    call does: it returns a dict with the one key [patterns_analysis], whose
    value is the model's answer as it came (not stripped) when the call
    returned, and the fixed text "Unable to identify patterns" when it
    raised; the log grows by one error record in the second case and not at
    all in the first. *)
Theorem identify_code_patterns_never_raises (code : string) (l : log) :
  exists analysis l',
    identify_code_patterns code l
    = (Return (JDict [("patterns_analysis", JStr analysis)]), l')
    /\ ((invoke_with_template CodeParserAgent identify_patterns_template
           [("code", code)] = Return analysis /\ l' = l)
        \/ (exists e,
              invoke_with_template CodeParserAgent identify_patterns_template
                [("code", code)] = Raise e
              /\ analysis = "Unable to identify patterns"
              /\ l' = l ++ [(ERROR, "Error identifying patterns: " +:+ str_of_exn e)])).
Proof.
  unfold identify_code_patterns. unfold_M.
  destruct (invoke_with_template _ _ _) as [response|e] eqn:Hcall; simpl.
  - exists response, l. split; [reflexivity|]. now left.
  - eexists _, _. split; [reflexivity|]. right. exists e. auto.
Qed.


(** *** Strings and their parts *)

Lemma append_nil_r (a : string) : a +:+ "" = a.
Proof.
  induction a as [|c a IH]; [reflexivity|]. now rewrite append_cons, IH.
Qed.

Lemma is_part_of_refl (s : string) : is_part_of s s.
Proof. exists "", "". now rewrite append_nil_r. Qed.

Lemma is_part_of_trans (u t s : string) :
  is_part_of u t -> is_part_of t s -> is_part_of u s.
Proof.
  intros (a & b & ->) (c & d & ->).
  exists (c +:+ a), (b +:+ d). now rewrite !append_assoc.
Qed.

Lemma is_part_of_length (t s : string) :
  is_part_of t s -> String.length t <= String.length s.
Proof. intros (a & b & ->). rewrite !length_append. lia. Qed.

Lemma str_drop_part (n : nat) (s : string) : is_part_of (str_drop n s) s.
Proof.
  exists (str_take n s), "". now rewrite append_nil_r, str_take_drop.
Qed.

Lemma str_take_part (n : nat) (s : string) : is_part_of (str_take n s) s.
Proof. exists "", (str_drop n s). now rewrite str_take_drop. Qed.

Lemma lstrip_part (s : string) : is_part_of (lstrip s) s.
Proof.
  induction s as [|c s IH]; [apply is_part_of_refl|]. simpl.
  destruct (isspace c); [|apply is_part_of_refl].
  destruct IH as (a & b & Hs). exists (String c a), b.
  now rewrite append_cons, <- Hs.
Qed.

(** [rstrip] keeps the front of the string. *)
Lemma rstrip_prefix (s : string) : exists after, s = rstrip s +:+ after.
Proof.
  induction s as [|c s (after & IH)]; [now exists ""|]. simpl.
  destruct (isspace c && String.eqb (rstrip s) "").
  - now exists (String c s).
  - exists after. now rewrite append_cons, <- IH.
Qed.

Lemma rstrip_part (s : string) : is_part_of (rstrip s) s.
Proof. destruct (rstrip_prefix s) as (after & Hs). now exists "", after. Qed.

Lemma strip_part (s : string) : is_part_of (strip s) s.
Proof.
  unfold strip. eapply is_part_of_trans; [apply rstrip_part | apply lstrip_part].
Qed.

(** X5. The text [parse_code] hands to [json.loads] is a run of consecutive
    characters of the model's answer: the strips only take characters away
    at the two ends, they add and reorder nothing, so the payload is never
    longer than the answer. *)
Theorem fenced_payload_is_part (response : string) :
  (exists before after,
      response = before +:+ (fenced_payload response +:+ after))
  /\ String.length (fenced_payload response) <= String.length response.
Proof.
  assert (H : is_part_of (fenced_payload response) response).
  { unfold fenced_payload.
    eapply is_part_of_trans; [apply strip_part|].
    eapply is_part_of_trans.
    { unfold strip_trailing_fence. destruct (endswith _ _);
        [apply str_take_part | apply is_part_of_refl]. }
    eapply is_part_of_trans.
    { unfold strip_leading_fence. destruct (startswith _ _);
        [apply str_drop_part | apply is_part_of_refl]. }
    eapply is_part_of_trans; [|apply strip_part].
    unfold strip_json_fence. destruct (startswith _ _);
      [apply str_drop_part | apply is_part_of_refl]. }
  split; [exact H | now apply is_part_of_length].
Qed.

Lemma startswith_app (a s : string) : startswith (a +:+ s) a = true.
Proof.
  unfold startswith. induction a as [|c a IH]; [now destruct s|].
  rewrite append_cons. simpl. now destruct (ascii_dec c c).
Qed.

Lemma str_drop_app (a s : string) : str_drop (String.length a) (a +:+ s) = s.
Proof. induction a as [|c a IH]; [now destruct s|]. now rewrite append_cons. Qed.

Lemma str_take_app (s a : string) : str_take (String.length s) (s +:+ a) = s.
Proof.
  induction s as [|c s IH]; [now destruct a|].
  rewrite append_cons. simpl. now rewrite IH.
Qed.

Lemma endswith_app (s a : string) : endswith (s +:+ a) a = true.
Proof.
  unfold endswith. rewrite length_append.
  replace (String.length s + String.length a - String.length a)
    with (String.length s) by lia.
  rewrite str_drop_app, String.eqb_refl.
  apply andb_true_intro. split; [apply Nat.leb_le; lia | reflexivity].
Qed.

Lemma str_drop_last_app (s a : string) :
  str_drop_last (String.length a) (s +:+ a) = s.
Proof.
  unfold str_drop_last. rewrite length_append.
  replace (String.length s + String.length a - String.length a)
    with (String.length s) by lia.
  apply str_take_app.
Qed.

Lemma rstrip_app (a b : string) :
  rstrip (a +:+ b)
  = if String.eqb (rstrip b) "" then rstrip a else a +:+ rstrip b.
Proof.
  induction a as [|c a IH].
  - change ("" +:+ b) with b. change ("" +:+ rstrip b) with (rstrip b).
    destruct (String.eqb_spec (rstrip b) "") as [->|]; reflexivity.
  - rewrite append_cons. cbn [rstrip]. rewrite IH.
    destruct (String.eqb_spec (rstrip b) "") as [Hb|Hb]; [reflexivity|].
    rewrite append_cons.
    assert (Hne : String.eqb (a +:+ rstrip b) "" = false).
    { destruct a; [|reflexivity].
      change ("" +:+ rstrip b) with (rstrip b). now apply String.eqb_neq. }
    rewrite Hne, andb_false_r. reflexivity.
Qed.

Lemma lstrip_length (s : string) : String.length (lstrip s) <= String.length s.
Proof. apply is_part_of_length, lstrip_part. Qed.

Lemma rstrip_length (s : string) : String.length (rstrip s) <= String.length s.
Proof. apply is_part_of_length, rstrip_part. Qed.

(** A string that [strip] leaves alone has no blank at either end. *)
Lemma strip_fixed (p : string) :
  strip p = p ->
  rstrip p = p
  /\ match p with
     | EmptyString => True
     | String c _ => isspace c = false
     end.
Proof.
  intros Hp. unfold strip in Hp.
  assert (Hl : lstrip p = p).
  { destruct p as [|c p]; [reflexivity|]. simpl in *.
    destruct (isspace c); [|reflexivity].
    apply (f_equal String.length) in Hp. simpl in Hp.
    pose proof (rstrip_length (lstrip p)). pose proof (lstrip_length p). lia. }
  rewrite Hl in Hp. split; [exact Hp|].
  destruct p as [|c p]; [exact I|]. simpl in Hl.
  destruct (isspace c); [|reflexivity].
  apply (f_equal String.length) in Hl. simpl in Hl.
  pose proof (lstrip_length p). lia.
Qed.

(** A text that starts with a line feed does not start with a fence. *)
Lemma strip_leading_fence_newline (s : string) :
  strip_leading_fence (newline +:+ s) = newline +:+ s.
Proof. reflexivity. Qed.

(** What is left of a fenced answer once the opening fence and its tag are
    gone: the closing fence goes, and then the line feeds. *)
Lemma fence_unwrap (p : string) :
  strip p = p ->
  strip (strip_trailing_fence (newline +:+ (p +:+ (newline +:+ "```")))) = p.
Proof.
  intros Hp. apply strip_fixed in Hp as [Hr Hfirst].
  rewrite <- !append_assoc.
  unfold strip_trailing_fence. rewrite endswith_app.
  change 3 with (String.length "```"). rewrite str_drop_last_app.
  rewrite append_assoc. unfold strip.
  change (newline +:+ (p +:+ newline)) with (String LF (p +:+ newline)).
  change (lstrip (String LF (p +:+ newline))) with (lstrip (p +:+ newline)).
  destruct p as [|c p]; [reflexivity|].
  rewrite append_cons. cbn [lstrip]. rewrite Hfirst.
  rewrite <- append_cons, rstrip_app. exact Hr.
Qed.

(** X6. A payload without blanks at its ends that is sent inside a fence,
    tagged [json] or not, with the payload on lines of its own, comes out of
    the strips of [parse_code] exactly as it was. *)
Theorem fenced_payload_roundtrip (payload : string) :
  strip payload = payload ->
  fenced_payload ("```json" +:+ newline +:+ payload +:+ newline +:+ "```")
  = payload
  /\ fenced_payload ("```" +:+ newline +:+ payload +:+ newline +:+ "```")
     = payload.
Proof.
  intros Hp.
  assert (Hwhole : forall fence : string,
             match fence with String c _ => isspace c = false | _ => False end ->
             strip (fence +:+ newline +:+ payload +:+ newline +:+ "```")
             = fence +:+ newline +:+ payload +:+ newline +:+ "```").
  { intros [|c fence] Hc; [contradiction|]. unfold strip.
    rewrite append_cons. cbn [lstrip]. rewrite Hc.
    rewrite <- append_cons, <- !append_assoc, rstrip_app. reflexivity. }
  unfold fenced_payload. split.
  - rewrite Hwhole by reflexivity.
    unfold strip_json_fence. rewrite startswith_app.
    change 7 with (String.length "```json"). rewrite str_drop_app.
    rewrite strip_leading_fence_newline. now apply fence_unwrap.
  - rewrite Hwhole by reflexivity.
    unfold strip_json_fence.
    change ("```" +:+ newline +:+ payload +:+ newline +:+ "```")
      with (String "`" (String "`" (String "`"
              (String LF (payload +:+ newline +:+ "```"))))).
    change (startswith
              (String "`" (String "`" (String "`"
                 (String LF (payload +:+ newline +:+ "```")))))
              "```json") with false.
    cbv iota.
    change (String "`" (String "`" (String "`"
              (String LF (payload +:+ newline +:+ "```")))))
      with ("```" +:+ (newline +:+ (payload +:+ (newline +:+ "```")))).
    unfold strip_leading_fence.
    rewrite startswith_app.
    change 3 with (String.length "```"). rewrite str_drop_app.
    now apply fence_unwrap.
Qed.

(** ** More on the planner *)

Lemma str_take_idem (n : nat) (s : string) :
  str_take n (str_take n s) = str_take n s.
Proof.
  revert s; induction n as [|n IH]; intros [|c s]; simpl; try reflexivity.
  now rewrite IH.
Qed.

(** X7. The plan reads the code only through its first 500 characters and
    the bugs only through the first 3: cutting the code to 500 characters
    and the list of bugs to 3 beforehand changes neither the queries nor the
    log.  A missing [bugs_found] is an empty one. *)
Theorem plan_reads_prefixes (code : string) (bug_info : BugInfo) (l : log) :
  _generate_search_queries code bug_info l
  = _generate_search_queries (str_take 500 code)
      {| key_bugs_found := Some (take 3 (default_to [] (key_bugs_found bug_info))) |}
      l.
Proof.
  rewrite !_generate_search_queries_run.
  unfold plan_candidates, keyword_queries. cbn [key_bugs_found default_to].
  now rewrite take_take, str_take_idem.
Qed.

(** ** More on the deduplicator *)


Lemma NoDup_fmap_elem {A B : Type} (f : A -> B) (l : list A) (x y : A) :
  NoDup (f <$> l) -> x ∈ l -> y ∈ l -> f x = f y -> x = y.
Proof.
  induction l as [|a l IH]; intros Hnd Hx Hy Hf; [inversion Hx|].
  rewrite fmap_cons in Hnd. apply NoDup_cons in Hnd as [Ha Hnd].
  apply elem_of_cons in Hx as [->|Hx]; apply elem_of_cons in Hy as [->|Hy].
  - reflexivity.
  - exfalso. apply Ha. rewrite Hf. now apply list_elem_of_fmap_2.
  - exfalso. apply Ha. rewrite <- Hf. now apply list_elem_of_fmap_2.
  - now apply IH.
Qed.

(** On results whose hashes are all different and all new, the loop keeps
    every one. *)
Lemma dedupe_loop_distinct (results : list ScoredDocument) :
  forall (seen_texts : gset Z) (unique : list ScoredDocument),
    NoDup (text_hash <$> results) ->
    (forall x, x ∈ results -> text_hash x ∉ seen_texts) ->
    dedupe_loop results seen_texts unique = unique ++ results.
Proof.
  induction results as [|result results IH]; intros seen_texts unique Hnd Hnew.
  - simpl. now rewrite app_nil_r.
  - simpl. rewrite fmap_cons in Hnd. apply NoDup_cons in Hnd as [Hfresh Hnd].
    destruct (decide (text_hash result ∈ seen_texts)) as [Hin|_].
    { exfalso. apply (Hnew result); [apply list_elem_of_here | exact Hin]. }
    rewrite IH, <- app_assoc; [reflexivity | exact Hnd |].
    intros x Hx. rewrite elem_of_union, elem_of_singleton. intros [Heq|Hin].
    + apply Hfresh. rewrite <- Heq. now apply list_elem_of_fmap_2.
    + apply (Hnew x); [now apply list_elem_of_further | exact Hin].
Qed.

(** Sorting a list that is in order leaves it as it is. *)
Lemma sort_reverse_sorted_id {A : Type} (key : A -> Q) (l : list A) :
  StronglySorted (not_below key) l -> sort_reverse key l = l.
Proof.
  intros Hsorted. symmetry.
  now apply sort_reverse_is_the_stable_sort.
Qed.

(** The loop from the empty set: the survivors. *)
Lemma dedupe_loop_survivors (results : list ScoredDocument) :
  NoDup (text_hash <$> dedupe_loop results ∅ [])
  /\ sublist (dedupe_loop results ∅ []) results.
Proof.
  destruct (dedupe_loop_spec results ∅ []) as (kept & -> & Hnd & Hsub & _).
  - intros z. simpl. rewrite elem_of_nil. set_solver.
  - constructor.
  - simpl in *. auto.
Qed.

(** X8. Deduplicating twice is deduplicating once: what
    [_deduplicate_results] returns is a list it returns unchanged. *)
Theorem _deduplicate_results_idempotent (results : list ScoredDocument) :
  _deduplicate_results (_deduplicate_results results)
  = _deduplicate_results results.
Proof.
  destruct (dedupe_loop_survivors results) as [Hnd _].
  unfold _deduplicate_results at 1.
  rewrite dedupe_loop_distinct.
  - simpl. apply sort_reverse_sorted_id. apply sort_reverse_sorted.
  - unfold _deduplicate_results.
    now rewrite (sort_reverse_perm score_key (dedupe_loop results ∅ [])).
  - intros x _. set_solver.
Qed.


(** X10. No two of the documents returned have the same first 200
    characters of text, whatever the hash is; a document without the key
    [text] counts as one with the empty text, so at most one document with
    no text or an empty one is returned. *)
Theorem _deduplicate_results_distinct_texts (results : list ScoredDocument) :
  forall d1 d2,
    d1 ∈ _deduplicate_results results ->
    d2 ∈ _deduplicate_results results ->
    str_take 200 (default_to "" (key_text d1))
    = str_take 200 (default_to "" (key_text d2)) ->
    d1 = d2.
Proof.
  intros d1 d2 H1 H2 Hprefix.
  destruct (dedupe_loop_survivors results) as [Hnd _].
  apply (NoDup_fmap_elem text_hash (_deduplicate_results results)); auto.
  - unfold _deduplicate_results.
    now rewrite (sort_reverse_perm score_key (dedupe_loop results ∅ [])).
  - unfold text_hash. now rewrite Hprefix.
Qed.

(** ** More on the synthesizer *)

Lemma render_parts_view (top_docs : list ScoredDocument) :
  forall i context_parts,
    render_parts i (map synthesis_view top_docs) context_parts
    = render_parts i top_docs context_parts.
Proof.
  induction top_docs as [|doc top_docs IH]; intros i context_parts;
    [reflexivity|].
  cbn [map render_parts synthesis_view key_text key_score default_to].
  now rewrite IH, str_take_idem.
Qed.

(** Whatever is rendered starts with the bracket of the first label. *)
Lemma _synthesize_context_head (doc : ScoredDocument) (rest : list ScoredDocument) :
  exists tail, _synthesize_context (doc :: rest) = String "[" tail.
Proof.
  destruct rest as [|d2 [|d3 rest]]; eexists; reflexivity.
Qed.

(** X11. The synthesizer returns the sentinel text for the empty list and
    for no other: a rendering always starts with the label of its first
    block.  Its result is never the empty string. *)
Theorem _synthesize_context_sentinel_iff (results : list ScoredDocument) :
  (_synthesize_context results = "No relevant documentation found."
   <-> results = [])
  /\ _synthesize_context results <> "".
Proof.
  destruct results as [|doc rest].
  - split; [split; reflexivity | discriminate].
  - destruct (_synthesize_context_head doc rest) as (tail & ->).
    split; [split; discriminate | discriminate].
Qed.

(** X12. The synthesizer reads of each document the first 300 characters of
    its text and its score, a missing text being the empty one and a missing
    score 0: documents that agree on these give the same context, whatever
    the rest of their text and their other keys are. *)
Theorem _synthesize_context_view (results : list ScoredDocument) :
  _synthesize_context (map synthesis_view results)
  = _synthesize_context results.
Proof.
  destruct results as [|doc rest]; [reflexivity|].
  change (map synthesis_view (doc :: rest))
    with (synthesis_view doc :: map synthesis_view rest).
  unfold _synthesize_context.
  change (synthesis_view doc :: map synthesis_view rest)
    with (map synthesis_view (doc :: rest)).
  now rewrite firstn_map, render_parts_view.
Qed.

(** ** More on the orchestrator *)

(** The search loop in one step: the hits are added in the order of the
    queries, the failures are logged in that order. *)
Lemma search_loop_run (queries : list string) :
  forall i all_results l,
    search_loop i queries all_results l
    = (Return (all_results ++ search_hits i queries),
       l ++ search_errors i queries).
Proof.
  induction queries as [|query queries IH]; intros i all_results l; simpl.
  - unfold ret. now rewrite !app_nil_r.
  - unfold bind at 1. unfold_M.
    destruct (search_documents_sync i query) as [results|e]; simpl;
      rewrite IH, <- ?app_assoc; reflexivity.
Qed.

Lemma retrieve_bug_context_eval (code : string) (bug_info : BugInfo) (l : log) :
  retrieve_bug_context code bug_info l
  = (Return
       {| retrieved_documents :=
            take 5 (_deduplicate_results
                      (search_hits 0 (take 5 (plan_candidates code bug_info))));
          synthesized_context :=
            _synthesize_context
              (_deduplicate_results
                 (search_hits 0 (take 5 (plan_candidates code bug_info))));
          total_documents_found :=
            length (_deduplicate_results
                      (search_hits 0 (take 5 (plan_candidates code bug_info)))) |},
     (l ++ match invoke_with_template ContextRetrievalAgent search_terms_template
                   [("code", str_take 500 code)] with
           | Return _ => []
           | Raise e =>
               [(WARNING, "Failed to extract search terms: " +:+ str_of_exn e)]
           end)
     ++ search_errors 0 (take 5 (plan_candidates code bug_info))).
Proof.
  unfold retrieve_bug_context. unfold bind at 1.
  rewrite _generate_search_queries_run. unfold bind at 1.
  rewrite search_loop_run. reflexivity.
Qed.

Lemma search_errors_length (queries : list string) :
  forall i, length (search_errors i queries) <= length queries.
Proof.
  induction queries as [|query queries IH]; intros i; simpl; [lia|].
  rewrite length_app. specialize (IH (S i)).
  destruct (search_documents_sync i query); simpl; lia.
Qed.

Lemma _deduplicate_results_nil_iff (results : list ScoredDocument) :
  _deduplicate_results results = [] <-> results = [].
Proof.
  split; [|now intros ->].
  intros Hnil. destruct results as [|x results]; [reflexivity|]. exfalso.
  destruct (dedupe_loop_spec (x :: results) ∅ [])
    as (kept & Hrun & _ & _ & _ & Hall).
  { intros z. simpl. rewrite elem_of_nil. set_solver. }
  { constructor. }
  destruct (Hall x (list_elem_of_here _ _)) as [Hin|(d & Hd & _)]; [set_solver|].
  unfold _deduplicate_results in Hnil. rewrite Hrun in Hnil. simpl in Hnil.
  apply (f_equal length) in Hnil.
  rewrite (Permutation_length (sort_reverse_perm score_key kept)) in Hnil.
  destruct kept; [inversion Hd | discriminate].
Qed.

(** X13. What [retrieve_bug_context] returns is computed from the hit lists
    of the planned queries put one after the other in the order of the
    queries, a failed search counting for nothing: that list is
    deduplicated and ranked, and the result holds its first 5 documents, the
    synthesis of all of it and its length.  The log receives the warning of
    the planner, if any, and then one error for each failed search, at most
    5; the total is at most the number of hits. *)
Theorem retrieve_bug_context_closed_form
    (code : string) (bug_info : BugInfo) (l : log) :
  let queries := take 5 (plan_candidates code bug_info) in
  let unique_results := _deduplicate_results (search_hits 0 queries) in
  retrieve_bug_context code bug_info l
  = (Return {| retrieved_documents := take 5 unique_results;
               synthesized_context := _synthesize_context unique_results;
               total_documents_found := length unique_results |},
     (l ++ match invoke_with_template ContextRetrievalAgent search_terms_template
                   [("code", str_take 500 code)] with
           | Return _ => []
           | Raise e =>
               [(WARNING, "Failed to extract search terms: " +:+ str_of_exn e)]
           end)
     ++ search_errors 0 queries)
  /\ length (search_errors 0 queries) <= 5
  /\ length unique_results <= length (search_hits 0 queries).
Proof.
  cbv zeta. split; [apply retrieve_bug_context_eval|]. split.
  - etransitivity; [apply search_errors_length|].
    rewrite length_take. lia.
  - destruct (dedupe_loop_survivors
                (search_hits 0 (take 5 (plan_candidates code bug_info))))
      as [_ Hsub].
    apply sublist_length in Hsub. unfold _deduplicate_results.
    now rewrite (Permutation_length (sort_reverse_perm score_key _)).
Qed.

(** X14. The three fields of the result agree on whether anything was
    found: the total is 0 exactly when no document is returned, exactly when
    the context is the sentinel text, and exactly when no search returned a
    document. *)
Theorem retrieve_bug_context_nothing_found
    (code : string) (bug_info : BugInfo) (l : log) :
  exists result l',
    retrieve_bug_context code bug_info l = (Return result, l')
    /\ (total_documents_found result = 0 <-> retrieved_documents result = [])
    /\ (total_documents_found result = 0
        <-> synthesized_context result = "No relevant documentation found.")
    /\ (total_documents_found result = 0
        <-> search_hits 0 (take 5 (plan_candidates code bug_info)) = []).
Proof.
  rewrite retrieve_bug_context_eval. eexists _, _. split; [reflexivity|].
  cbn [total_documents_found retrieved_documents synthesized_context].
  generalize (search_hits 0 (take 5 (plan_candidates code bug_info))) as hits.
  intros hits.
  assert (Hlen : length (_deduplicate_results hits) = 0
                 <-> _deduplicate_results hits = [])
    by (destruct (_deduplicate_results hits); simpl; split; congruence).
  split; [|split].
  - rewrite Hlen. destruct (_deduplicate_results hits); simpl; split; congruence.
  - rewrite Hlen. destruct (_deduplicate_results hits) as [|doc rest];
      [split; reflexivity|].
    destruct (_synthesize_context_head doc rest) as (tail & ->).
    split; discriminate.
  - rewrite Hlen. apply _deduplicate_results_nil_iff.
Qed.

End Agents.

(** ** The decoder of the examples *)

(** The scanner reads on: what it leaves is shorter than what it was given.
    So the fuel [json_loads_ref] hands it, two calls for a character and two
    more, is never used up. *)

Lemma skip_ws_length (s : string) : String.length (skip_ws s) <= String.length s.
Proof.
  induction s as [|c s IH]; simpl; [lia|].
  destruct (is_json_ws c); simpl; lia.
Qed.

Lemma str_drop_length (n : nat) (s : string) :
  String.length (str_drop n s) <= String.length s.
Proof.
  revert s. induction n as [|n IH]; intros [|c s]; simpl; try lia.
  specialize (IH s). lia.
Qed.

Lemma take_digits_length (acc : Z) (count : nat) (s : string) :
  String.length (take_digits acc count s).2 <= String.length s.
Proof.
  revert acc count. induction s as [|c s IH]; intros acc count; simpl; [lia|].
  destruct (is_digit c); simpl; [|lia].
  specialize (IH (10 * acc + digit_value c)%Z (S count)). lia.
Qed.

Lemma and_then_scanned {A B : Type} (r : scanned A) (k : A -> string -> scanned B)
    (b : B) (rest : string) :
  and_then r k = Scanned b rest ->
  exists a rest', r = Scanned a rest' /\ k a rest' = Scanned b rest.
Proof. destruct r; simpl; intros H; try discriminate. eauto. Qed.

Lemma and_then_exhausted {A B : Type} (r : scanned A) (k : A -> string -> scanned B) :
  and_then r k = Exhausted ->
  r = Exhausted \/ exists a rest', r = Scanned a rest' /\ k a rest' = Exhausted.
Proof. destruct r; simpl; intros H; try discriminate; eauto. Qed.

Lemma raise_errmsg_not_scanned {A : Type} (left : nat) (msg rest : string)
    (a : A) (r : string) :
  raise_errmsg left msg rest <> Scanned a r.
Proof. destruct left as [|[|[|left]]]; discriminate. Qed.

Lemma raise_errmsg_not_exhausted {A : Type} (left : nat) (msg rest : string) :
  @raise_errmsg A left msg rest <> Exhausted.
Proof. destruct left as [|[|[|left]]]; discriminate. Qed.

Lemma parse_constant_scanned (left : nat) (value : json) (rest : string)
    (v : json) (r : string) :
  parse_constant left value rest = Scanned v r -> r = rest.
Proof. destruct left; simpl; intros H; [discriminate | congruence]. Qed.

Lemma parse_constant_not_exhausted (left : nat) (value : json) (rest : string) :
  parse_constant left value rest <> Exhausted.
Proof. destruct left; discriminate. Qed.

Lemma raise_errmsg_spec {A : Type} (left : nat) (msg rest s : string) :
  @raise_errmsg A left msg rest <> Exhausted
  /\ forall (a : A) (r : string),
       raise_errmsg left msg rest = Scanned a r -> String.length r < String.length s.
Proof.
  split; [apply raise_errmsg_not_exhausted|].
  intros a r H. now apply raise_errmsg_not_scanned in H.
Qed.

Lemma scanstring_spec (left : nat) (opening : string) :
  forall n s, String.length s <= n ->
    scanstring left opening s <> Exhausted
    /\ forall chars rest, scanstring left opening s = Scanned chars rest ->
         String.length rest < String.length s.
Proof.
  assert (Hstep : forall (c : ascii) (r s : string),
             String.length r < String.length s ->
             (scanstring left opening r <> Exhausted
              /\ forall chars rest, scanstring left opening r = Scanned chars rest ->
                   String.length rest < String.length r) ->
             and_then (scanstring left opening r)
               (fun chars rest => Scanned (String c chars) rest) <> Exhausted
             /\ forall chars rest,
                  and_then (scanstring left opening r)
                    (fun chars rest => Scanned (String c chars) rest)
                  = Scanned chars rest ->
                  String.length rest < String.length s).
  { intros c r s Hlt [Hne Hrest]. split.
    - intros H. apply and_then_exhausted in H as [H|(a & r' & _ & H)];
        [now apply Hne | discriminate].
    - intros chars rest H.
      apply and_then_scanned in H as (a & r' & Hr & H).
      injection H as _ <-. apply Hrest in Hr. lia. }
  induction n as [|n IH]; intros s Hlen.
  { destruct s; simpl in Hlen; [|lia]. apply raise_errmsg_spec. }
  destruct s as [|c r]; [apply raise_errmsg_spec|].
  simpl in Hlen. cbn [scanstring].
  destruct (Ascii.eqb c DQUOTE).
  { split; [discriminate|]. intros chars rest H. injection H as _ <-. simpl. lia. }
  destruct (Ascii.eqb c "\").
  2: { destruct (nat_of_ascii c <? 32)%nat; [apply raise_errmsg_spec|].
       apply Hstep; [simpl; lia | apply IH; lia]. }
  destruct r as [|e r']; [apply raise_errmsg_spec|].
  simpl in Hlen.
  destruct (Ascii.eqb e "u").
  - destruct r' as [|h1 [|h2 [|h3 [|h4 [|c' r'']]]]]; try apply raise_errmsg_spec.
    destruct (hex_value h1), (hex_value h2), (hex_value h3), (hex_value h4);
      try apply raise_errmsg_spec.
    match goal with |- context [if ?b then _ else _] => destruct b end.
    + apply Hstep; [simpl; lia | apply IH; simpl in *; lia].
    + split; [discriminate | intros chars rest H; discriminate].
  - match goal with |- context [match ?d with Some _ => _ | None => _ end] =>
      destruct d end; [|apply raise_errmsg_spec].
    apply Hstep; [simpl; lia | apply IH; lia].
Qed.

Lemma take_digits_rest (acc : Z) (count : nat) (s : string) (v : Z) (k : nat)
    (rest : string) :
  take_digits acc count s = (v, k, rest) -> String.length rest <= String.length s.
Proof.
  intros H. pose proof (take_digits_length acc count s) as Hl.
  rewrite H in Hl. exact Hl.
Qed.

Lemma scan_number_spec (s : string) (r : scanned json) :
  scan_number s = Some r ->
  r <> Exhausted
  /\ forall v rest, r = Scanned v rest -> String.length rest < String.length s.
Proof.
  unfold scan_number.
  set (sign := match s with
               | String c r => if Ascii.eqb c "-" then (true, r) else (false, s)
               | EmptyString => (false, s)
               end).
  assert (Hsign : String.length sign.2 <= String.length s).
  { subst sign. destruct s as [|c r0]; simpl; [lia|].
    destruct (Ascii.eqb c "-"); simpl; lia. }
  destruct sign as [negative s1]. cbn [snd] in Hsign.
  set (integer := match s1 with
                  | String c r =>
                      if Ascii.eqb c "0" then Some (0%Z, 1, r)
                      else if is_digit c then Some (take_digits 0 0 s1)
                      else None
                  | EmptyString => None
                  end).
  assert (Hint : forall v k s2, integer = Some (v, k, s2) ->
                   String.length s2 < String.length s1).
  { subst integer. intros v k s2. destruct s1 as [|c r0]; [discriminate|].
    destruct (Ascii.eqb c "0"); [intros H; injection H as _ _ <-; simpl; lia|].
    destruct (is_digit c) eqn:Hd; [|discriminate].
    intros H. injection H as H. simpl in H. rewrite Hd in H.
    apply take_digits_rest in H. simpl. lia. }
  destruct integer as [[[int_value int_digits] s2]|]; [|discriminate].
  specialize (Hint _ _ _ eq_refl).
  match goal with |- (match ?X with _ => _ end) = _ -> _ => set (frac := X) end.
  assert (Hfrac : String.length frac.2 <= String.length s2).
  { subst frac. destruct s2 as [|c r0]; simpl; [lia|].
    destruct (Ascii.eqb c "."); simpl; [|lia].
    destruct (take_digits int_value 0 r0) as [[v k] r'] eqn:Hd.
    apply take_digits_rest in Hd.
    destruct (k =? 0)%nat; simpl; lia. }
  destruct frac as [[mantissa frac_digits] s3]. cbn [snd] in Hfrac.
  match goal with |- (match ?X with _ => _ end) = _ -> _ => set (expo := X) end.
  assert (Hexp : String.length expo.2 <= String.length s3).
  { subst expo. destruct s3 as [|c r0]; simpl; [lia|].
    destruct (Ascii.eqb c "e" || Ascii.eqb c "E"); simpl; [|lia].
    match goal with |- context [take_digits 0 0 (match ?X with _ => _ end).2] => idtac | _ => idtac end.
    set (sgn := match r0 with
                | String c' r' =>
                    if Ascii.eqb c' "-" then (true, r')
                    else if Ascii.eqb c' "+" then (false, r') else (false, r0)
                | EmptyString => (false, r0)
                end).
    assert (Hsgn : String.length sgn.2 <= String.length r0).
    { subst sgn. destruct r0 as [|c' r']; simpl; [lia|].
      destruct (Ascii.eqb c' "-"); simpl; [lia|].
      destruct (Ascii.eqb c' "+"); simpl; lia. }
    destruct sgn as [minus r1]. cbn [snd] in Hsgn.
    destruct (take_digits 0 0 r1) as [[v k] r2] eqn:Hd.
    apply take_digits_rest in Hd.
    destruct (k =? 0)%nat; simpl; lia. }
  destruct expo as [exponent s4]. cbn [snd] in Hexp.
  intros H.
  assert (Hs4 : String.length s4 < String.length s) by lia.
  destruct frac_digits, exponent;
    try (injection H as <-; split; [discriminate|];
         intros v rest Hv; injection Hv as _ <-; exact Hs4).
  destruct (int_max_str_digits <? int_digits)%nat;
    injection H as <-; split; try discriminate.
  intros v rest Hv; injection Hv as _ <-; exact Hs4.
Qed.

Ltac scanned_rest H :=
  match type of H with
  | Scanned _ ?x = Scanned _ ?r => assert (r = x) as -> by congruence; clear H
  end.

Lemma str_drop_shorter (n : nat) (c : ascii) (s : string) :
  String.length (str_drop (S n) (String c s)) < String.length (String c s).
Proof. cbn [str_drop String.length]. pose proof (str_drop_length n s). lia. Qed.

Lemma scan_rest_shorter (fuel : nat) :
  (forall left s v r,
      scan_once fuel left s = Scanned v r -> String.length r < String.length s)
  /\ (forall left values s v r,
         scan_items fuel left values s = Scanned v r ->
         String.length r < String.length s)
  /\ (forall left pairs s v r,
         scan_members fuel left pairs s = Scanned v r ->
         String.length r < String.length s).
Proof.
  induction fuel as [|fuel (IHonce & IHitems & IHmembers)].
  { repeat split; intros; discriminate. }
  split; [|split].
  - intros left [|c rest] v r; [discriminate|]. cbn [scan_once].
    destruct (Ascii.eqb c DQUOTE).
    { intros H. apply and_then_scanned in H as (chars & r' & Hs & H).
      scanned_rest H.
      apply (scanstring_spec left (String c rest) _ rest (le_n _)) in Hs.
      cbn [String.length]. lia. }
    destruct (Ascii.eqb c "{").
    { destruct left as [|left]; [discriminate|].
      pose proof (skip_ws_length rest) as Hws.
      destruct (startswith (skip_ws rest) "}").
      - intros H. scanned_rest H.
        pose proof (str_drop_length 1 (skip_ws rest)) as Hd.
        cbn [String.length]. lia.
      - intros H. apply IHmembers in H. cbn [String.length]. lia. }
    destruct (Ascii.eqb c "[").
    { destruct left as [|left]; [discriminate|].
      pose proof (skip_ws_length rest) as Hws.
      destruct (startswith (skip_ws rest) "]").
      - intros H. scanned_rest H.
        pose proof (str_drop_length 1 (skip_ws rest)) as Hd.
        cbn [String.length]. lia.
      - intros H. apply IHitems in H. cbn [String.length]. lia. }
    destruct (startswith (String c rest) "null");
      [intros H; scanned_rest H; apply str_drop_shorter|].
    destruct (startswith (String c rest) "true");
      [intros H; scanned_rest H; apply str_drop_shorter|].
    destruct (startswith (String c rest) "false");
      [intros H; scanned_rest H; apply str_drop_shorter|].
    destruct (startswith (String c rest) "NaN");
      [intros H; apply parse_constant_scanned in H as ->; apply str_drop_shorter|].
    destruct (startswith (String c rest) "Infinity");
      [intros H; apply parse_constant_scanned in H as ->; apply str_drop_shorter|].
    destruct (startswith (String c rest) "-Infinity");
      [intros H; apply parse_constant_scanned in H as ->; apply str_drop_shorter|].
    destruct (scan_number (String c rest)) as [result|] eqn:Hnum; [|discriminate].
    intros ->. now apply (proj2 (scan_number_spec _ _ Hnum) v r).
  - intros left values s v r. cbn [scan_items]. intros H.
    apply and_then_scanned in H as (value & r1 & Hv & H).
    apply IHonce in Hv. pose proof (skip_ws_length r1) as Hws.
    destruct (skip_ws r1) as [|c r'];
      [now apply raise_errmsg_not_scanned in H|].
    cbn [String.length] in Hws.
    destruct (Ascii.eqb c "]"); [scanned_rest H; lia|].
    destruct (Ascii.eqb c ","); [|now apply raise_errmsg_not_scanned in H].
    apply IHitems in H. pose proof (skip_ws_length r'). lia.
  - intros left pairs [|c after] v r; cbn [scan_members];
      [intros H; now apply raise_errmsg_not_scanned in H|].
    destruct (Ascii.eqb c DQUOTE); cbn [negb];
      [|intros H; now apply raise_errmsg_not_scanned in H].
    intros H. apply and_then_scanned in H as (key & r0 & Hk & H).
    apply (scanstring_spec left (String c after) _ after (le_n _)) in Hk.
    destruct (startswith (skip_ws r0) ":"); cbn [negb] in H;
      [|now apply raise_errmsg_not_scanned in H].
    apply and_then_scanned in H as (value & r2 & Hv & H).
    apply IHonce in Hv.
    pose proof (skip_ws_length r0). pose proof (str_drop_length 1 (skip_ws r0)).
    pose proof (skip_ws_length (str_drop 1 (skip_ws r0))).
    pose proof (skip_ws_length r2) as Hws.
    destruct (skip_ws r2) as [|c' r3];
      [now apply raise_errmsg_not_scanned in H|].
    cbn [String.length] in Hws.
    destruct (Ascii.eqb c' "}"); [scanned_rest H; cbn [String.length]; lia|].
    destruct (Ascii.eqb c' ","); [|now apply raise_errmsg_not_scanned in H].
    apply IHmembers in H. pose proof (skip_ws_length r3). cbn [String.length]. lia.
Qed.

(** The scanner never uses up the fuel [json_loads_ref] gives it. *)
Lemma scan_fuel_enough (fuel : nat) :
  (forall left s,
      2 * String.length s + 1 <= fuel -> scan_once fuel left s <> Exhausted)
  /\ (forall left values s,
         2 * String.length s + 2 <= fuel ->
         scan_items fuel left values s <> Exhausted)
  /\ (forall left pairs s,
         2 * String.length s + 2 <= fuel ->
         scan_members fuel left pairs s <> Exhausted).
Proof.
  induction fuel as [|fuel (IHonce & IHitems & IHmembers)].
  { repeat split; intros; lia. }
  destruct (scan_rest_shorter fuel) as (Sonce & Sitems & Smembers).
  split; [|split].
  - intros left [|c rest] Hfuel; [discriminate|]. cbn [scan_once].
    cbn [String.length] in Hfuel.
    destruct (Ascii.eqb c DQUOTE).
    { intros H. apply and_then_exhausted in H as [H|(a & r' & _ & H)];
        [|discriminate].
      now apply (scanstring_spec left (String c rest) _ rest (le_n _)) in H. }
    pose proof (skip_ws_length rest) as Hws.
    destruct (Ascii.eqb c "{").
    { destruct left as [|left]; [discriminate|].
      destruct (startswith (skip_ws rest) "}"); [discriminate|].
      apply IHmembers. lia. }
    destruct (Ascii.eqb c "[").
    { destruct left as [|left]; [discriminate|].
      destruct (startswith (skip_ws rest) "]"); [discriminate|].
      apply IHitems. lia. }
    destruct (startswith (String c rest) "null"); [discriminate|].
    destruct (startswith (String c rest) "true"); [discriminate|].
    destruct (startswith (String c rest) "false"); [discriminate|].
    destruct (startswith (String c rest) "NaN");
      [apply parse_constant_not_exhausted|].
    destruct (startswith (String c rest) "Infinity");
      [apply parse_constant_not_exhausted|].
    destruct (startswith (String c rest) "-Infinity");
      [apply parse_constant_not_exhausted|].
    destruct (scan_number (String c rest)) as [result|] eqn:Hnum; [|discriminate].
    exact (proj1 (scan_number_spec _ _ Hnum)).
  - intros left values s Hfuel. cbn [scan_items]. intros H.
    apply and_then_exhausted in H as [H|(value & r1 & Hv & H)].
    { revert H. apply IHonce. lia. }
    apply Sonce in Hv. pose proof (skip_ws_length r1) as Hws.
    destruct (skip_ws r1) as [|c r'];
      [now apply raise_errmsg_not_exhausted in H|].
    cbn [String.length] in Hws.
    destruct (Ascii.eqb c "]"); [discriminate|].
    destruct (Ascii.eqb c ","); [|now apply raise_errmsg_not_exhausted in H].
    revert H. apply IHitems. pose proof (skip_ws_length r'). lia.
  - intros left pairs [|c after] Hfuel; cbn [scan_members];
      [apply raise_errmsg_not_exhausted|].
    cbn [String.length] in Hfuel.
    destruct (Ascii.eqb c DQUOTE); cbn [negb];
      [|apply raise_errmsg_not_exhausted].
    intros H. apply and_then_exhausted in H as [H|(key & r0 & Hk & H)].
    { now apply (scanstring_spec left (String c after) _ after (le_n _)) in H. }
    apply (scanstring_spec left (String c after) _ after (le_n _)) in Hk.
    destruct (startswith (skip_ws r0) ":"); cbn [negb] in H;
      [|now apply raise_errmsg_not_exhausted in H].
    pose proof (skip_ws_length r0). pose proof (str_drop_length 1 (skip_ws r0)).
    pose proof (skip_ws_length (str_drop 1 (skip_ws r0))).
    apply and_then_exhausted in H as [H|(value & r2 & Hv & H)].
    { revert H. apply IHonce. lia. }
    apply Sonce in Hv.
    pose proof (skip_ws_length r2) as Hws.
    destruct (skip_ws r2) as [|c' r3];
      [now apply raise_errmsg_not_exhausted in H|].
    cbn [String.length] in Hws.
    destruct (Ascii.eqb c' "}"); [discriminate|].
    destruct (Ascii.eqb c' ","); [|now apply raise_errmsg_not_exhausted in H].
    revert H. apply IHmembers. pose proof (skip_ws_length r3). lia.
Qed.

(** [json_loads_ref] gives the scanner fuel enough for any text. *)
Lemma json_loads_ref_fuel (recursion_left : nat) (s : string) :
  scan_once (2 * String.length s + 2) recursion_left (skip_ws s) <> Exhausted.
Proof.
  pose proof (skip_ws_length s) as Hws.
  apply (scan_fuel_enough (2 * String.length s + 2)). lia.
Qed.

(** ** The theorems at concrete inputs *)

(** C1 at an index that is down, for the bug of the scenario: four queries,
    four logged errors, the empty result. *)
Lemma retrieve_all_searches_fail_witness :
  exists queries l1 errors,
    _generate_search_queries model_unavailable sample_code use_after_free []
    = (Return queries, l1)
    /\ length errors = length queries
    /\ retrieve_bug_context model_unavailable index_unreachable example_hash
         sample_code use_after_free []
       = (Return {| retrieved_documents := [];
                    synthesized_context := "No relevant documentation found.";
                    total_documents_found := 0 |},
          l1 ++ map (fun e => (ERROR, "Error searching documents: " +:+ str_of_exn e))
                  errors).
Proof.
  apply (retrieve_all_searches_fail model_unavailable index_unreachable
           example_hash sample_code use_after_free []).
  intros i query. eexists. reflexivity.
Defined.

(** C2 at the answer "not json at all" for three lines of code: the
    [line_count] is 3, the lines of the code, not the 1 of the answer.  The
    decoder is [json.loads] called far from the recursion limit, with 900
    levels left; the warning carries the text of its error, place
    included. *)
Lemma parse_code_fallback_witness :
  parse_code (model_answers "not json at all") (json_loads_ref 900) sample_code "" []
  = (Return (JDict [("functions", JList []);
                    ("variables", JList []);
                    ("line_count", JInt 3);
                    ("complexity", JStr "unknown");
                    ("potential_issues", JList []);
                    ("code_summary", JStr "Unable to parse code structure")]),
     [(WARNING,
       "Failed to parse JSON response: Expecting value: line 1 column 1 (char 0)")])
  /\ 3 = length (str_split LF sample_code).
Proof.
  apply (parse_code_fallback (model_answers "not json at all") (json_loads_ref 900)
           sample_code "" "not json at all"
           "Expecting value: line 1 column 1 (char 0)" []);
    reflexivity.
Defined.

(** C3 at a model that is unavailable: the [RuntimeError] reaches the
    caller. *)
Lemma parse_code_raises_iff_witness :
  parse_code model_unavailable (json_loads_ref 900) sample_code "" []
  = (Raise (Exception "RuntimeError" "model unavailable"),
     [(ERROR, "Error parsing code: model unavailable")]).
Proof.
  apply (proj1 (parse_code_raises_iff model_unavailable (json_loads_ref 900)
                  sample_code "" [])).
  repeat split; reflexivity.
Defined.



(** C6 fails on the code: with no bug reported and a keyword extraction that
    answers blanks, the second query of the plan is the empty string. *)
Theorem plan_blank_keyword_query :
  _generate_search_queries (model_answers "  ") sample_code
    {| key_bugs_found := Some [] |} []
  = (Return ["C++ common bugs"; ""], []).
Proof. reflexivity. Qed.

(** C7 at the scenario, the keyword extraction failing. *)
Lemma plan_generation_order_witness :
  _generate_search_queries model_unavailable sample_code use_after_free []
  = (Return ["C++ use-after-free";
             "use-after-free bug example";
             "pointer freed then dereferenced in loop";
             "C++ common bugs"],
     [(WARNING, "Failed to extract search terms: model unavailable")]).
Proof.
  apply (proj2 (proj2 (plan_generation_order model_unavailable sample_code
                         use_after_free []))
           (Exception "RuntimeError" "model unavailable")).
  reflexivity.
Defined.

(** C8 at four documents: three blocks, the fourth document left out, within
    the bound. *)
Lemma synthesize_context_spec_witness :
  String.length
    (_synthesize_context [doc_seen_again; doc_first_seen; doc_other; doc_bare])
  <= 3 * (300 + 342) + 4
  /\ _synthesize_context [doc_seen_again; doc_first_seen; doc_other; doc_bare]
     = "[Document 1, relevance: 0.95]
Dereferencing a pointer after delete is undefined....

[Document 2, relevance: 0.90]
Dereferencing a pointer after delete is undefined....

[Document 3, relevance: 0.90]
Iterators are invalidated by erase....".
Proof.
  split; [|reflexivity].
  apply synthesize_context_spec.
  repeat constructor; vm_compute; discriminate.
Defined.

(** The whole pipeline on four queries, the second of which fails: the
    failure is logged and skipped, the copy found later is dropped although
    it scores higher, and the hit without a score comes last. *)
Example retrieve_overlapping_hits :
  retrieve_bug_context model_unavailable index_overlapping example_hash
    sample_code use_after_free []
  = (Return {| retrieved_documents := [doc_first_seen; doc_other; doc_bare];
               synthesized_context :=
"[Document 1, relevance: 0.90]
Dereferencing a pointer after delete is undefined....

[Document 2, relevance: 0.90]
Iterators are invalidated by erase....

[Document 3, relevance: 0.00]
...";
               total_documents_found := 3 |},
     [(WARNING, "Failed to extract search terms: model unavailable");
      (ERROR, "Error searching documents: timed out")]).
Proof. vm_compute. reflexivity. Qed.

(** A well-formed answer inside a tagged fence is decoded and returned. *)
Example parse_code_fenced_answer :
  parse_code
    (model_answers (requote "```json
{'functions': ['main'], 'variables': [], 'line_count': 3,
 'complexity': 'low', 'potential_issues': [], 'code_summary': 'returns 0'}
```"))
    (json_loads_ref 900) sample_code "" []
  = (Return (JDict [("functions", JList [JStr "main"]);
                    ("variables", JList []);
                    ("line_count", JInt 3);
                    ("complexity", JStr "low");
                    ("potential_issues", JList []);
                    ("code_summary", JStr "returns 0")]),
     [(INFO, "Successfully parsed code structure")]).
Proof. vm_compute. reflexivity. Qed.

(** The decoder at the places where a simpler one would differ: the text of
    an error ends with the line, the column and the place; a numeral too
    large for a double is an infinity, and one with a fraction is the nearest
    double; nesting deeper than the recursion left is a [RecursionError]. *)
Example json_loads_ref_error_place :
  json_loads_ref 900 "[1,]"
  = Raise (JSONDecodeError "Expecting value: line 1 column 4 (char 3)")
  /\ json_loads_ref 900 (requote "{'a': [1, 2," +:+ newline +:+ " x]}")
     = Raise (JSONDecodeError "Expecting value: line 2 column 2 (char 14)")
  /\ json_loads_ref 900 (requote "{'a' 1}")
     = Raise (JSONDecodeError "Expecting ':' delimiter: line 1 column 6 (char 5)")
  /\ json_loads_ref 900 "[1 2]"
     = Raise (JSONDecodeError "Expecting ',' delimiter: line 1 column 4 (char 3)")
  /\ json_loads_ref 900 "{a:1}"
     = Raise (JSONDecodeError
                "Expecting property name enclosed in double quotes: line 1 column 2 (char 1)")
  /\ json_loads_ref 900 (requote "'abc")
     = Raise (JSONDecodeError
                "Unterminated string starting at: line 1 column 1 (char 0)")
  /\ json_loads_ref 900 (requote "'a\x'")
     = Raise (JSONDecodeError "Invalid \escape: line 1 column 3 (char 2)")
  /\ json_loads_ref 900 "1 2"
     = Raise (JSONDecodeError "Extra data: line 1 column 3 (char 2)").
Proof. repeat split; vm_compute; reflexivity. Qed.

Example json_loads_ref_floats :
  json_loads_ref 900 "1e400" = Return (JInfinity false)
  /\ json_loads_ref 900 "-1e400" = Return (JInfinity true)
  /\ json_loads_ref 900 "1e-400" = Return (JFloat 0)
  /\ json_loads_ref 900 "0.1"
     = Return (JFloat (3602879701896397 # 36028797018963968))
  /\ json_loads_ref 900 "9007199254740993.0"
     = Return (JFloat (inject_Z 9007199254740992))
  /\ json_loads_ref 900 "1.7976931348623158e308"
     = Return (JFloat (inject_Z DBL_MAX))
  /\ json_loads_ref 900 "1.7976931348623159e308" = Return (JInfinity false)
  /\ json_loads_ref 900 "10" = Return (JInt 10).
Proof. repeat split; vm_compute; reflexivity. Qed.

Example json_loads_ref_deep_nesting :
  json_loads_ref 3 "[[[1]]]" = Return (JList [JList [JList [JInt 1]]])
  /\ json_loads_ref 3 "[[[[1]]]]"
     = Raise (Exception "RecursionError"
                "maximum recursion depth exceeded while decoding a JSON array from a unicode string").
Proof. split; vm_compute; reflexivity. Qed.

(** An answer nested deeper than the recursion left: the [RecursionError] of
    [json.loads] is no [JSONDecodeError], so [parse_code] logs it and raises
    it again. *)
Example parse_code_deep_answer :
  parse_code (model_answers "[[[[1]]]]") (json_loads_ref 3) sample_code "" []
  = (Raise (Exception "RecursionError"
              "maximum recursion depth exceeded while decoding a JSON array from a unicode string"),
     [(ERROR,
       "Error parsing code: maximum recursion depth exceeded while decoding a JSON array from a unicode string")]).
Proof. vm_compute. reflexivity. Qed.

(** ** Changing the collaborators *)

Lemma search_hits_tolerant
    (search : nat -> string -> outcome (list ScoredDocument))
    (queries : list string) :
  forall i,
    search_hits
      (fun i query =>
         match search i query with
         | Return results => Return results
         | Raise _ => Return []
         end) i queries
    = search_hits search i queries.
Proof.
  induction queries as [|query queries IH]; intros i; simpl; [reflexivity|].
  rewrite IH. now destruct (search i query).
Qed.

(** X15. A search that raises changes the result exactly as a search that
    finds nothing: replacing every failure of the index by an empty hit list
    gives the same documents, the same context and the same total.  Only the
    log tells the two apart. *)
Theorem retrieve_failure_is_no_hit
    (invoke_with_template :
       BaseAgent -> string -> list (string * string) -> outcome string)
    (search : nat -> string -> outcome (list ScoredDocument))
    (hash : string -> Z) (code : string) (bug_info : BugInfo) (l : log) :
  (retrieve_bug_context invoke_with_template search hash code bug_info l).1
  = (retrieve_bug_context invoke_with_template
       (fun i query =>
          match search i query with
          | Return results => Return results
          | Raise _ => Return []
          end)
       hash code bug_info l).1.
Proof.
  rewrite !retrieve_bug_context_eval. cbn [fst].
  now rewrite search_hits_tolerant.
Qed.

(** X16. Once the bugs give 4 queries or more, the plan does not depend on
    the keyword extraction: with any two text-generation calls the queries
    are the same.  The extraction is made all the same, and its failure is
    logged although its answer could not have been used. *)
Theorem plan_full_without_keywords
    (invoke1 invoke2 :
       BaseAgent -> string -> list (string * string) -> outcome string)
    (code : string) (bug_info : BugInfo) (l : log) :
  4 <= length (concat (map per_bug_queries
                         (take 3 (default_to [] (key_bugs_found bug_info))))) ->
  (_generate_search_queries invoke1 code bug_info l).1
  = (_generate_search_queries invoke2 code bug_info l).1
  /\ (forall e,
         invoke1 ContextRetrievalAgent search_terms_template
           [("code", str_take 500 code)] = Raise e ->
         (_generate_search_queries invoke1 code bug_info l).2
         = l ++ [(WARNING, "Failed to extract search terms: " +:+ str_of_exn e)]).
Proof.
  intros Hlen. rewrite !_generate_search_queries_run. cbn [fst snd]. split.
  - unfold plan_candidates.
    generalize dependent (concat (map per_bug_queries
                            (take 3 (default_to [] (key_bugs_found bug_info))))).
    intros bug_part Hlen. f_equal.
    assert (Hcut : forall keywords : list string,
               take 5 (bug_part ++ ["C++ common bugs"] ++ keywords)
               = take 5 (bug_part ++ ["C++ common bugs"])).
    { intros keywords. rewrite (app_assoc bug_part).
      apply take_app_le. rewrite length_app. simpl. lia. }
    now rewrite !Hcut.
  - intros e He. now rewrite He.
Qed.

(** ** config.py *)

(** What one [mkdir] does to the file system. *)
Lemma mkdir_exist_ok_spec (path : list string) (fs : gmap (list string) node) :
  match mkdir_exist_ok path fs with
  | (Return _, fs') =>
      fs' !! path = Some Directory
      /\ fs !! path <> Some File
      /\ (forall p, p <> path -> fs' !! p = fs !! p)
      /\ (fs !! path = Some Directory -> fs' = fs)
      /\ fs ⊆ fs'
  | (Raise e, fs') =>
      fs' = fs /\ (forall msg, e <> Exception "ValueError" msg)
  end.
Proof.
  unfold mkdir_exist_ok.
  destruct (fs !! path) as [[|]|] eqn:Hpath.
  - split; [reflexivity | discriminate].
  - repeat split; auto; discriminate.
  - destruct (fs !! parent path) as [[|]|] eqn:Hparent.
    + split; [reflexivity | discriminate].
    + split; [apply lookup_insert_eq|]. split; [discriminate|].
      split; [intros p Hp; now apply lookup_insert_ne|].
      split; [discriminate | now apply insert_subseteq].
    + split; [reflexivity | discriminate].
Qed.

Lemma mkdir_exist_ok_returns (path : list string) (fs : gmap (list string) node) :
  fs !! path <> Some File ->
  (fs !! path = None -> fs !! parent path = Some Directory) ->
  exists fs',
    mkdir_exist_ok path fs = (Return tt, fs')
    /\ fs ⊆ fs'
    /\ (forall p, p <> path -> fs' !! p = fs !! p).
Proof.
  intros Hfile Hparent. unfold mkdir_exist_ok.
  destruct (fs !! path) as [[|]|] eqn:Hpath; [congruence | eauto |].
  rewrite (Hparent eq_refl). eexists. split; [reflexivity|].
  split; [now apply insert_subseteq|].
  intros p Hp. now apply lookup_insert_ne.
Qed.

(** The file system after [validate], step by step. *)
Lemma validate_run (cls : Config) (fs : gmap (list string) node) :
  match validate cls fs with
  | (Return b, fs') =>
      b = true /\ key_missing cls = false
      /\ fs ⊆ fs'
      /\ fs' !! OUTPUT_DIR cls = Some Directory
      /\ fs' !! LOGS_DIR cls = Some Directory
      /\ fs' !! EXAMPLES_DIR cls = Some Directory
      /\ fs !! OUTPUT_DIR cls <> Some File
      /\ fs !! LOGS_DIR cls <> Some File
      /\ fs !! EXAMPLES_DIR cls <> Some File
      /\ (forall p,
            p <> OUTPUT_DIR cls -> p <> LOGS_DIR cls -> p <> EXAMPLES_DIR cls ->
            fs' !! p = fs !! p)
  | (Raise e, fs') =>
      fs ⊆ fs'
      /\ (key_missing cls = true ->
          fs' = fs
          /\ e = Exception "ValueError"
                   "GOOGLE_API_KEY environment variable is required")
      /\ (key_missing cls = false -> forall msg, e <> Exception "ValueError" msg)
  end.
Proof.
  unfold validate. destruct (key_missing cls) eqn:Hkey.
  { split; [reflexivity|]. split; [auto | discriminate]. }
  pose proof (mkdir_exist_ok_spec (OUTPUT_DIR cls) fs) as H1.
  destruct (mkdir_exist_ok (OUTPUT_DIR cls) fs) as [[[]|e1] fs1].
  2: { destruct H1 as [-> H1]. split; [reflexivity|]. split; [discriminate | auto]. }
  destruct H1 as (Ho1 & Hf1 & Hframe1 & _ & Hsub1).
  pose proof (mkdir_exist_ok_spec (LOGS_DIR cls) fs1) as H2.
  destruct (mkdir_exist_ok (LOGS_DIR cls) fs1) as [[[]|e2] fs2].
  2: { destruct H2 as [-> H2]. split; [exact Hsub1|]. split; [discriminate | auto]. }
  destruct H2 as (Ho2 & Hf2 & Hframe2 & _ & Hsub2).
  pose proof (mkdir_exist_ok_spec (EXAMPLES_DIR cls) fs2) as H3.
  destruct (mkdir_exist_ok (EXAMPLES_DIR cls) fs2) as [[[]|e3] fs3].
  2: { destruct H3 as [-> H3]. split; [now transitivity fs1|].
       split; [discriminate | auto]. }
  destruct H3 as (Ho3 & Hf3 & Hframe3 & _ & Hsub3).
  assert (Hsub : fs ⊆ fs3) by (transitivity fs1; [|transitivity fs2]; assumption).
  split; [reflexivity|]. split; [reflexivity|]. split; [exact Hsub|].
  split; [eapply lookup_weaken; [exact Ho1 | now transitivity fs2]|].
  split; [eapply lookup_weaken; [exact Ho2 | exact Hsub3]|].
  split; [exact Ho3|].
  split; [exact Hf1|].
  split; [intros H; apply Hf2; eapply lookup_weaken; [exact H | exact Hsub1]|].
  split; [intros H; apply Hf3; eapply lookup_weaken;
          [exact H | now transitivity fs1]|].
  intros p Hp1 Hp2 Hp3.
  now rewrite Hframe3, Hframe2, Hframe1.
Qed.

(** X17. When [validate] returns, it returns [True], the API key is set and
    not empty, the directories [output], [logs] and [examples] exist as
    directories, and every other path of the file system is as it was. *)
Theorem validate_success (cls : Config) (fs fs' : gmap (list string) node)
    (b : bool) :
  validate cls fs = (Return b, fs') ->
  b = true
  /\ key_missing cls = false
  /\ fs' !! OUTPUT_DIR cls = Some Directory
  /\ fs' !! LOGS_DIR cls = Some Directory
  /\ fs' !! EXAMPLES_DIR cls = Some Directory
  /\ (forall p,
        p <> OUTPUT_DIR cls -> p <> LOGS_DIR cls -> p <> EXAMPLES_DIR cls ->
        fs' !! p = fs !! p).
Proof.
  intros Hrun. pose proof (validate_run cls fs) as H. rewrite Hrun in H.
  tauto.
Qed.

(** X18. [validate] never removes or replaces what is in the file system,
    however it ends: every path that was there still names what it named.
    It raises a [ValueError] exactly when the API key is unset or empty, and
    it has then created no directory. *)
Theorem validate_keeps_what_exists (cls : Config) (fs : gmap (list string) node) :
  fs ⊆ (validate cls fs).2
  /\ ((exists msg, (validate cls fs).1 = Raise (Exception "ValueError" msg))
      <-> key_missing cls = true)
  /\ (key_missing cls = true -> (validate cls fs).2 = fs).
Proof.
  pose proof (validate_run cls fs) as H.
  destruct (validate cls fs) as [[b|e] fs']; cbn [fst snd].
  - destruct H as (_ & Hkey & Hsub & _).
    split; [exact Hsub|]. split; [|congruence].
    split; [intros (msg & Hmsg); discriminate | congruence].
  - destruct H as (Hsub & Hmissing & Hpresent).
    split; [exact Hsub|]. split.
    + split.
      * intros (msg & Hmsg). injection Hmsg as ->.
        destruct (key_missing cls); [reflexivity|].
        now destruct (Hpresent eq_refl msg).
      * intros Hkey. destruct (Hmissing Hkey) as [_ ->]. eauto.
    + intros Hkey. now destruct (Hmissing Hkey).
Qed.

(** X19. [validate] can be run again: after a run that returned, a second
    run returns too and changes nothing. *)
Theorem validate_idempotent (cls : Config) (fs fs' : gmap (list string) node)
    (b : bool) :
  validate cls fs = (Return b, fs') ->
  validate cls fs' = (Return true, fs').
Proof.
  intros Hrun. pose proof (validate_run cls fs) as H. rewrite Hrun in H.
  destruct H as (_ & Hkey & _ & Ho & Hl & He & _).
  unfold validate, mkdir_exist_ok. now rewrite Hkey, Ho, Hl, He.
Qed.

Lemma child_paths_differ (dir : list string) (a b : string) :
  a <> b -> dir ++ [a] <> dir ++ [b].
Proof. intros Hab H. apply app_inv_head in H. congruence. Qed.

Lemma child_path_not_parent (dir : list string) (a : string) : dir <> dir ++ [a].
Proof.
  intros H. apply (f_equal length) in H. rewrite length_app in H. simpl in H. lia.
Qed.

Lemma parent_child (dir : list string) (a : string) : parent (dir ++ [a]) = dir.
Proof. apply removelast_last. Qed.

(** One [mkdir] on a system that may refuse: when it returns. *)
Lemma mkdir_exist_ok_os_returns (refusal : list string -> option exn)
    (path : list string) (fs fs' : gmap (list string) node) :
  mkdir_exist_ok_os refusal path fs = (Return tt, fs')
  <-> (fs !! path = Some Directory /\ fs' = fs)
      \/ (fs !! path = None /\ fs !! parent path = Some Directory
          /\ refusal path = None /\ fs' = <[path := Directory]> fs).
Proof.
  unfold mkdir_exist_ok_os.
  destruct (fs !! path) as [[|]|] eqn:Hpath.
  - split; [discriminate | intros [[H _]|[H _]]; discriminate].
  - split; [intros H; injection H as <-; auto|].
    intros [[_ ->]|[H _]]; [reflexivity | discriminate].
  - destruct (fs !! parent path) as [[|]|] eqn:Hparent.
    + split; [discriminate | intros [[H _]|(_ & H & _)]; discriminate].
    + destruct (refusal path) as [e|] eqn:Hrefusal.
      * split; [discriminate | intros [[H _]|(_ & _ & H & _)]; discriminate].
      * split; [intros H; injection H as <-; right; auto|].
        intros [[H _]|(_ & _ & _ & ->)]; [discriminate | reflexivity].
    + split; [discriminate | intros [[H _]|(_ & H & _)]; discriminate].
Qed.

Lemma mkdir_exist_ok_os_creatable (refusal : list string -> option exn)
    (path : list string) (fs : gmap (list string) node) :
  fs !! path = Some Directory \/ (fs !! path = None /\ refusal path = None) ->
  fs !! parent path = Some Directory ->
  exists fs', mkdir_exist_ok_os refusal path fs = (Return tt, fs').
Proof.
  intros [Hdir|[Hnone Hr]] Hparent.
  - exists fs. apply mkdir_exist_ok_os_returns. now left.
  - exists (<[path := Directory]> fs). apply mkdir_exist_ok_os_returns.
    right. auto.
Qed.

(** The system that refuses nothing is the one of [validate]. *)
Lemma validate_os_permissive (cls : Config) (fs : gmap (list string) node) :
  validate_os (fun _ => None) cls fs = validate cls fs.
Proof. reflexivity. Qed.

(** X20. With the directory of [config.py] in place, [validate] returns
    exactly when the API key is set and not empty and each of [output],
    [logs] and [examples] under that directory either is a directory
    already, or is not there and the operating system does not refuse to
    create it.  So a file in the place of one of them makes it raise, and so
    does a refusal (no permission, no space) for one that has to be
    created. *)
Theorem validate_returns_iff (refusal : list string -> option exn)
    (env : gmap string string) (cwd config_dir : list string)
    (fs : gmap (list string) node) :
  fs !! config_dir = Some Directory ->
  (exists fs',
      validate_os refusal (Config_class env cwd config_dir) fs = (Return true, fs'))
  <-> (exists key, env !! "GOOGLE_API_KEY" = Some key /\ key <> "")
      /\ (fs !! (config_dir ++ ["output"]) = Some Directory
          \/ (fs !! (config_dir ++ ["output"]) = None
              /\ refusal (config_dir ++ ["output"]) = None))
      /\ (fs !! (config_dir ++ ["logs"]) = Some Directory
          \/ (fs !! (config_dir ++ ["logs"]) = None
              /\ refusal (config_dir ++ ["logs"]) = None))
      /\ (fs !! (config_dir ++ ["examples"]) = Some Directory
          \/ (fs !! (config_dir ++ ["examples"]) = None
              /\ refusal (config_dir ++ ["examples"]) = None)).
Proof.
  intros Hroot.
  assert (Hkey : key_missing (Config_class env cwd config_dir) = false
                 <-> exists key, env !! "GOOGLE_API_KEY" = Some key /\ key <> "").
  { unfold key_missing, truthy. cbn [GOOGLE_API_KEY Config_class]. unfold getenv.
    destruct (env !! "GOOGLE_API_KEY") as [key|]; simpl.
    - destruct (String.eqb_spec key "") as [->|Hne]; simpl.
      + split; [discriminate | intros (k & Hk & Hne); congruence].
      + split; [eauto | reflexivity].
    - split; [discriminate | intros (k & Hk & _); discriminate]. }
  (* one step: the directory [name] on a file system that agrees with [fs]
     on it and still holds the directory of [config.py] *)
  assert (Hstep : forall (name : string) (fs1 fs2 : gmap (list string) node),
             fs1 !! config_dir = Some Directory ->
             fs1 !! (config_dir ++ [name]) = fs !! (config_dir ++ [name]) ->
             mkdir_exist_ok_os refusal (config_dir ++ [name]) fs1 = (Return tt, fs2)
             <-> (fs !! (config_dir ++ [name]) = Some Directory
                  \/ (fs !! (config_dir ++ [name]) = None
                      /\ refusal (config_dir ++ [name]) = None))
                 /\ (fs2 = fs1 \/ fs2 = <[config_dir ++ [name] := Directory]> fs1)
                 /\ (fs !! (config_dir ++ [name]) = Some Directory -> fs2 = fs1)
                 /\ (fs !! (config_dir ++ [name]) = None ->
                     fs2 = <[config_dir ++ [name] := Directory]> fs1)).
  { intros name fs1 fs2 Hdir Hsame.
    rewrite mkdir_exist_ok_os_returns, parent_child, Hsame, Hdir.
    split.
    - intros [[H ->]|(H & _ & Hr & ->)].
      + split; [now left|]. split; [now left|]. split; [auto | congruence].
      + split; [now right|]. split; [now right|]. split; [congruence | auto].
    - intros ([H|[H Hr]] & _ & Hd & Hn); [left | right]; auto. }
  assert (Hroot_kept : forall (name : string) (fs1 : gmap (list string) node),
             fs1 !! config_dir = Some Directory ->
             <[config_dir ++ [name] := Directory]> fs1 !! config_dir
             = Some Directory).
  { intros name fs1 H. rewrite lookup_insert_ne; [exact H|].
    intros Heq. now apply (child_path_not_parent config_dir name). }
  assert (Hother : forall (a b : string) (fs1 : gmap (list string) node),
             a <> b ->
             <[config_dir ++ [a] := Directory]> fs1 !! (config_dir ++ [b])
             = fs1 !! (config_dir ++ [b])).
  { intros a b fs1 Hab. apply lookup_insert_ne. now apply child_paths_differ. }
  unfold validate_os. cbn [OUTPUT_DIR LOGS_DIR EXAMPLES_DIR Config_class].
  destruct (key_missing (Config_class env cwd config_dir)) eqn:Hk.
  { split; [intros (fs' & H); discriminate|].
    intros (Hset & _). apply Hkey in Hset. discriminate. }
  assert (Hset : exists key, env !! "GOOGLE_API_KEY" = Some key /\ key <> "")
    by now apply Hkey.
  destruct (mkdir_exist_ok_os refusal (config_dir ++ ["output"]) fs)
    as [[[]|e1] fs1] eqn:H1.
  2: { split; [intros (fs' & H); discriminate|].
       intros (_ & Ho & _). exfalso.
       destruct (mkdir_exist_ok_os_creatable refusal (config_dir ++ ["output"]) fs)
         as (fs' & Hret);
         [exact Ho | now rewrite parent_child | congruence]. }
  apply (Hstep "output" fs fs1 Hroot eq_refl) in H1 as (Ho & Hfs1 & _).
  assert (Hroot1 : fs1 !! config_dir = Some Directory)
    by (destruct Hfs1 as [->| ->]; [exact Hroot | now apply Hroot_kept]).
  assert (Hlogs1 : fs1 !! (config_dir ++ ["logs"]) = fs !! (config_dir ++ ["logs"]))
    by (destruct Hfs1 as [->| ->]; [reflexivity | now apply Hother]).
  assert (Hex1 : fs1 !! (config_dir ++ ["examples"])
                 = fs !! (config_dir ++ ["examples"]))
    by (destruct Hfs1 as [->| ->]; [reflexivity | now apply Hother]).
  destruct (mkdir_exist_ok_os refusal (config_dir ++ ["logs"]) fs1)
    as [[[]|e2] fs2] eqn:H2.
  2: { split; [intros (fs' & H); discriminate|].
       intros (_ & _ & Hl & _). exfalso.
       destruct (mkdir_exist_ok_os_creatable refusal (config_dir ++ ["logs"]) fs1)
         as (fs' & Hret);
         [rewrite Hlogs1; exact Hl | now rewrite parent_child | congruence]. }
  apply (Hstep "logs" fs1 fs2 Hroot1 Hlogs1) in H2 as (Hl & Hfs2 & _).
  assert (Hroot2 : fs2 !! config_dir = Some Directory)
    by (destruct Hfs2 as [->| ->]; [exact Hroot1 | now apply Hroot_kept]).
  assert (Hex2 : fs2 !! (config_dir ++ ["examples"])
                 = fs !! (config_dir ++ ["examples"]))
    by (destruct Hfs2 as [->| ->]; [exact Hex1 | now rewrite Hother]).
  destruct (mkdir_exist_ok_os refusal (config_dir ++ ["examples"]) fs2)
    as [[[]|e3] fs3] eqn:H3.
  2: { split; [intros (fs' & H); discriminate|].
       intros (_ & _ & _ & He). exfalso.
       destruct (mkdir_exist_ok_os_creatable refusal (config_dir ++ ["examples"]) fs2)
         as (fs' & Hret);
         [rewrite Hex2; exact He | now rewrite parent_child | congruence]. }
  apply (Hstep "examples" fs2 fs3 Hroot2 Hex2) in H3 as (He & _).
  split; [auto | eauto].
Qed.


(** ** The further theorems at concrete inputs *)

(** X6 at a JSON array. *)
Lemma fenced_payload_roundtrip_witness :
  fenced_payload ("```json" +:+ newline +:+ "[1, 2]" +:+ newline +:+ "```")
  = "[1, 2]"
  /\ fenced_payload ("```" +:+ newline +:+ "[1, 2]" +:+ newline +:+ "```")
     = "[1, 2]".
Proof. apply (fenced_payload_roundtrip "[1, 2]"). reflexivity. Defined.

(** X10 at three hits, two of them with the same text. *)
Lemma _deduplicate_results_distinct_texts_witness :
  doc_first_seen = doc_first_seen.
Proof.
  apply (_deduplicate_results_distinct_texts example_hash
           [doc_first_seen; doc_seen_again; doc_other]
           doc_first_seen doc_first_seen).
  - apply list_elem_of_In. vm_compute. now left.
  - apply list_elem_of_In. vm_compute. now left.
  - reflexivity.
Defined.

(** X16 at two complete bugs: six queries from the bugs, of which the first
    five are the plan, with the model answering or not. *)
Lemma plan_full_without_keywords_witness :
  (_generate_search_queries (model_answers "heap, pointer") sample_code
     two_bugs []).1
  = (_generate_search_queries model_unavailable sample_code two_bugs []).1.
Proof.
  apply (plan_full_without_keywords (model_answers "heap, pointer")
           model_unavailable sample_code two_bugs []).
  vm_compute. lia.
Defined.

(** X17 at a file system that holds the directory of [config.py] only. *)
Lemma validate_success_witness :
  (validate (Config_class example_env example_root example_root) example_fs).2
    !! (example_root ++ ["logs"]) = Some Directory.
Proof.
  apply (validate_success (Config_class example_env example_root example_root)
           example_fs
           (validate (Config_class example_env example_root example_root)
              example_fs).2
           true).
  assert (H : (validate (Config_class example_env example_root example_root)
                 example_fs).1 = Return true) by (vm_compute; reflexivity).
  destruct (validate (Config_class example_env example_root example_root)
              example_fs) as [o fs'].
  cbn [fst snd] in *. now rewrite H.
Defined.

(** X19 at the same file system. *)
Lemma validate_idempotent_witness :
  validate (Config_class example_env example_root example_root)
    (validate (Config_class example_env example_root example_root) example_fs).2
  = (Return true,
     (validate (Config_class example_env example_root example_root) example_fs).2).
Proof.
  apply (validate_idempotent (Config_class example_env example_root example_root)
           example_fs _ true).
  assert (H : (validate (Config_class example_env example_root example_root)
                 example_fs).1 = Return true) by (vm_compute; reflexivity).
  destruct (validate (Config_class example_env example_root example_root)
              example_fs) as [o fs'].
  cbn [fst snd] in *. now rewrite H.
Defined.

(** X20 at the same file system, on a system that refuses nothing, and on
    one that lets nothing be created under [logs]: there [validate] raises
    the [PermissionError], having created [output]. *)
Lemma validate_returns_iff_witness :
  exists fs',
    validate_os (fun _ => None)
      (Config_class example_env example_root example_root) example_fs
    = (Return true, fs').
Proof.
  apply (validate_returns_iff (fun _ => None) example_env example_root
           example_root example_fs).
  - reflexivity.
  - split; [exists "secret"; split; [reflexivity | discriminate]|].
    repeat split; right; split; reflexivity.
Defined.

Example validate_permission_denied :
  validate_os logs_denied (Config_class example_env example_root example_root)
    example_fs
  = (Raise (Exception "PermissionError" "[Errno 13] Permission denied"),
     <[example_root ++ ["output"] := Directory]> example_fs).
Proof. reflexivity. Qed.

